(** * cyclonedx.model.bom: the BOM aggregate and its consistency validator

    A shallow embedding of [cyclonedx/model/bom.py]: the classes
    [BomMetaData] and [Bom], their constructors, setters, queries, the
    hash-based equality and [Bom.validate].

    Conventions.
    - Identifiers ([bom_ref]) are Python [str]; a Python [set] of them
      is a [gset string].
    - A [SortedSet] is the sequence it iterates, kept strictly sorted.
    - A method is a computation over the state it can touch: the
      instance it is called on and the stream of emitted warnings.  It
      ends by returning a value or by raising an exception. *)

From stdpp Require Import base list sets gmap strings lexico sorting.
From Stdlib Require Import ZArith Ascii.

Local Open Scope Z_scope.
Local Open Scope string_scope.

(** ** Python-level notions *)

Module Py.

(** Exceptions that the modelled code can raise. *)
Inductive Exn : Type :=
| UnknownComponentDependencyException (dependency_diff : gset string)
| TypeError (msg : string).

(** How the evaluation of an expression or a call ends. *)
Inductive Outcome (A : Type) : Type :=
| Return (a : A)
| Raise (e : Exn).
Arguments Return {A} a.
Arguments Raise {A} e.

Definition obind {A B} (o : Outcome A) (k : A -> Outcome B) : Outcome B :=
  match o with
  | Return a => k a
  | Raise e => Raise e
  end.

(** [datetime] values in UTC, as microseconds since the epoch. *)
Definition datetime : Type := Z.

(** [uuid.UUID]: the 128-bit integer [UUID.int]. *)
Record UUID : Type := mkUUID { int : Z }.

(** An optional [Iterable] argument as a caller can pass it: omitted
    ([None]), a sized container (list, tuple, set: false when empty), or
    a one-shot iterator (a generator: always true). *)
Inductive IterableArg (A : Type) : Type :=
| ArgNone
| ArgSized (items : list A)
| ArgIterator (items : list A).
Arguments ArgNone {A}.
Arguments ArgSized {A} items.
Arguments ArgIterator {A} items.

(** [bool(arg)] *)
Definition truthy {A} (arg : IterableArg A) : bool :=
  match arg with
  | ArgNone => false
  | ArgSized [] => false
  | ArgSized (_ :: _) => true
  | ArgIterator _ => true
  end.

End Py.

(** ** The identity and ordering contract of stored entities

    Every class whose instances are kept in a [SortedSet] defines
    [__eq__] and [__lt__] (and a hash consistent with [__eq__], which is
    what the built-in set inside the [SortedSet] looks values up by). *)

Class Entity (A : Type) : Type := {
  py_eq : A -> A -> bool;
  py_lt : A -> A -> bool;
  py_eq_refl : forall x, py_eq x x = true;
  py_eq_sym : forall x y, py_eq x y = true -> py_eq y x = true;
  py_eq_trans : forall x y z, py_eq x y = true -> py_eq y z = true -> py_eq x z = true;
  py_lt_irrefl : forall x y, py_eq x y = true -> py_lt x y = false;
  py_lt_trans : forall x y z, py_lt x y = true -> py_lt y z = true -> py_lt x z = true;
  py_lt_total : forall x y, py_lt x y = false -> py_lt y x = false -> py_eq x y = true
}.

Lemma py_eq_sym_false `{Entity A} (x y : A) : py_eq x y = false -> py_eq y x = false.
Proof.
  intros Hxy. destruct (py_eq y x) eqn:Hyx; [|done].
  by rewrite (py_eq_sym y x) in Hxy.
Qed.

(** An entity whose equality and order are those of a key tuple. *)
Section keyed.
Context {A K : Type} `{EqDecision K, Lexico K}
        `{!StrictOrder (@lexico K _), !TrichotomyT (@lexico K _)}.
Variable key : A -> K.

Definition key_eq (x y : A) : bool := bool_decide (key x = key y).

Definition key_lt (x y : A) : bool :=
  match trichotomyT lexico (key x) (key y) with
  | inleft (left _) => true
  | _ => false
  end.

Lemma key_lt_spec x y : key_lt x y = true <-> lexico (key x) (key y).
Proof.
  unfold key_lt.
  destruct (trichotomyT lexico (key x) (key y)) as [[Hl|He]|Hg]; split; try done.
  - intros Hl. rewrite He in Hl. by destruct (irreflexivity lexico (key y)).
  - intros Hl. destruct (irreflexivity lexico (key x)).
    by apply (transitivity Hl).
Qed.

Lemma key_lt_false x y : key_lt x y = false <-> ~ lexico (key x) (key y).
Proof. rewrite <- key_lt_spec. by destruct (key_lt x y). Qed.

Program Definition keyed_entity : Entity A :=
  {| py_eq := key_eq; py_lt := key_lt |}.
Next Obligation. intros x. unfold key_eq. by apply bool_decide_eq_true. Qed.
Next Obligation.
  intros x y. unfold key_eq. rewrite !bool_decide_eq_true. congruence.
Qed.
Next Obligation.
  intros x y z. unfold key_eq. rewrite !bool_decide_eq_true. congruence.
Qed.
Next Obligation.
  intros x y. unfold key_eq. rewrite bool_decide_eq_true, key_lt_false.
  intros ->. apply (irreflexivity lexico).
Qed.
Next Obligation.
  intros x y z. rewrite !key_lt_spec. apply transitivity.
Qed.
Next Obligation.
  intros x y. rewrite !key_lt_false. unfold key_eq. rewrite bool_decide_eq_true.
  intros H1 H2. by destruct (trichotomyT lexico (key x) (key y)) as [[?|?]|?].
Qed.
End keyed.

(** ** sortedcontainers.SortedSet

    The library keeps a built-in [set] (membership by hash and [__eq__])
    next to a [SortedList] (order by [__lt__]).  [add] inserts a value
    only when it is not yet a member, to the right of everything that is
    not greater.  The constructor and [update] collect the values in a
    built-in set first and sort them; under the ordering contract the
    sequence obtained is the one of adding the values one at a time
    (see [sorted_unique] below). *)

Module SortedSet.
Section sorted_set.
Context {A : Type} `{Entity A}.

(** [value in self] *)
Definition contains (value : A) (s : list A) : bool :=
  existsb (py_eq value) s.

(** [SortedList.add]: insertion at [bisect_right]. *)
Fixpoint insort (value : A) (s : list A) : list A :=
  match s with
  | [] => [value]
  | y :: s' => if py_lt value y then value :: y :: s' else y :: insort value s'
  end.

(** [SortedSet.add] *)
Definition add (value : A) (s : list A) : list A :=
  if contains value s then s else insort value s.

(** [SortedSet.update] *)
Definition update (s : list A) (iterable : list A) : list A :=
  fold_left (fun acc value => add value acc) iterable s.

(** [SortedSet(iterable)] *)
Definition new (iterable : list A) : list A := update [] iterable.

(** The representation invariant: strictly increasing for [__lt__]. *)
Definition sorted (s : list A) : Prop :=
  StronglySorted (fun x y => py_lt x y = true) s.
End sorted_set.
End SortedSet.

(** ** The entities a BOM refers to

    [Tool], [ExternalReference], [Component] and [Service] are declared
    in modules of the package that are not part of the sources at hand
    ([cyclonedx/model/__init__.py], [component.py], [service.py]); the
    records below carry the attributes that [bom.py] and the test data
    read. *)

(** Code points of a [str], the sequence Python compares strings by. *)
Definition code_points (s : string) : list N :=
  Ascii.N_of_ascii <$> String.list_ascii_of_string s.

Definition optional_code_points (s : option string) : list (list N) :=
  match s with
  | None => []
  | Some s => [code_points s]
  end.

Module Tool.
Record t : Type := mk {
  vendor : option string;
  name : option string;
  version : option string
}.

Global Instance eq_dec : EqDecision t.
Proof. solve_decision. Defined.

Definition key (x : t) : list (list N) * (list (list N) * list (list N)) :=
  (optional_code_points (vendor x),
   (optional_code_points (name x), optional_code_points (version x))).

(** Modelled from the spec: the identity and ordering contract of a
    tool entry, whose class is declared in [cyclonedx/model/__init__.py]:
    value equality and a total order on the defining attributes. *)
Global Instance entity : Entity t := keyed_entity key.
End Tool.

(** Modelled from the spec: the sentinel "self" tool entry [ThisTool],
    a constant of [cyclonedx/model/__init__.py]. *)
Definition ThisTool : Tool.t :=
  Tool.mk (Some "CycloneDX") (Some "cyclonedx-python-lib") None.

Module ExternalReference.
Record t : Type := mk {
  reference_type : string;
  url : string;
  comment : option string
}.

Global Instance eq_dec : EqDecision t.
Proof. solve_decision. Defined.

Definition key (x : t) : list N * (list N * list (list N)) :=
  (code_points (reference_type x),
   (code_points (url x), optional_code_points (comment x))).

(** Modelled from the spec: the identity and ordering contract of an
    external reference, whose class is declared in
    [cyclonedx/model/__init__.py]. *)
Global Instance entity : Entity t := keyed_entity key.
End ExternalReference.

(** [packageurl.PackageURL], a named tuple of six fields. *)
Module PackageURL.
Record t : Type := mk {
  type : string;
  namespace : option string;
  name : string;
  version : option string;
  qualifiers : option string;
  subpath : option string
}.

Global Instance eq_dec : EqDecision t.
Proof. solve_decision. Defined.
End PackageURL.

Module Component.
Record t : Type := mk {
  name : string;
  version : option string;
  bom_ref : string;
  purl : option PackageURL.t;
  dependencies : gset string;
  vulnerabilities : list string
}.

Global Instance eq_dec : EqDecision t.
Proof. solve_decision. Defined.

(** Modelled from the spec: [Component.has_vulnerabilities], declared
    in [cyclonedx/model/component.py]: whether the component carries at
    least one vulnerability. *)
Definition has_vulnerabilities (self : t) : bool :=
  match vulnerabilities self with
  | [] => false
  | _ :: _ => true
  end.

Definition key (x : t) : list N * (list (list N) * list N) :=
  (code_points (name x),
   (optional_code_points (version x), code_points (bom_ref x))).

(** Modelled from the spec: equality and ordering of components are
    value based, on the tuple of name, version and identifier; the
    methods themselves are in [cyclonedx/model/component.py]. *)
Global Instance entity : Entity t := keyed_entity key.
End Component.

Module Service.
Record t : Type := mk {
  name : string;
  version : option string;
  bom_ref : string
}.

Global Instance eq_dec : EqDecision t.
Proof. solve_decision. Defined.

Definition key (x : t) : list N * (list (list N) * list N) :=
  (code_points (name x),
   (optional_code_points (version x), code_points (bom_ref x))).

(** Modelled from the spec: equality and ordering of services are
    value based, on the tuple of name, version and identifier; the
    methods themselves are in [cyclonedx/model/service.py]. *)
Global Instance entity : Entity t := keyed_entity key.
End Service.

(** Attributes of the metadata that [bom.py] stores and never inspects:
    an [OrganizationalContact], an [OrganizationalEntity], a
    [LicenseChoice] and a [Property] are each stood for by their display
    text, ordered as text. *)
Definition OrganizationalContact : Type := string.
Definition OrganizationalEntity : Type := string.
Definition LicenseChoice : Type := string.
Definition Property : Type := string.

Global Instance text_entity : Entity string := keyed_entity code_points.

(** ** What the interpreter provides

    [datetime.now(tz=timezone.utc)] and [uuid4()] read the world; the
    built-in [hash] is fixed per process (string hashing is salted) and
    per class. *)

Module Runtime.
Import Py.

(** The readings a constructor call takes from the world. *)
Record World : Type := mkWorld {
  now : datetime;     (* datetime.now(tz=timezone.utc) *)
  uuid4 : UUID        (* uuid4() *)
}.

(** [sys.hash_info.modulus] of CPython on a 64-bit platform. *)
Definition hash_modulus : Z := 2 ^ 61 - 1.

(** [hash(n)] for an [int] [n >= 0]: reduction modulo the prime
    [hash_modulus]. *)
Definition hash_int (n : Z) : Z := n mod hash_modulus.

(** [UUID.__hash__]: [hash(self.int)]. *)
Definition hash_UUID (u : UUID) : Z := hash_int (int u).

(** The remaining hash functions.  [hash_SortedSet] is the built-in
    [hash] applied to a [SortedSet] of tools: whether it returns or
    raises [TypeError] is decided by the library class, not by
    [bom.py]. *)
Record Interp : Type := mkInterp {
  hash_datetime : datetime -> Z;
  hash_NoneType : Z;
  hash_tuple : list Z -> Z;
  hash_SortedSet : list Tool.t -> Outcome Z;
  hash_Component : Component.t -> Z;
  hash_Service : Service.t -> Z;
  hash_ExternalReference : ExternalReference.t -> Z
}.
End Runtime.

(** [x or []] for an optional iterable argument: the items that the
    [SortedSet] built from it receives. *)
Definition or_empty {A} (arg : Py.IterableArg A) : list A :=
  match arg with
  | Py.ArgNone => []
  | Py.ArgSized items => items
  | Py.ArgIterator items => items
  end.

(** ** class BomMetaData *)

Module BomMetaData.
Import Py Runtime.

Record t : Type := mk {
  timestamp : datetime;
  tools : list Tool.t;
  authors : list OrganizationalContact;
  component : option Component.t;
  manufacture : option OrganizationalEntity;
  supplier : option OrganizationalEntity;
  licenses : list LicenseChoice;
  properties : list Property
}.

(** Property setters. *)
Definition set_timestamp (self : t) (timestamp' : datetime) : t :=
  mk timestamp' (tools self) (authors self) (component self) (manufacture self)
     (supplier self) (licenses self) (properties self).

Definition set_tools (self : t) (tools' : list Tool.t) : t :=
  mk (timestamp self) (SortedSet.new tools') (authors self) (component self)
     (manufacture self) (supplier self) (licenses self) (properties self).

Definition set_component (self : t) (component' : option Component.t) : t :=
  mk (timestamp self) (tools self) (authors self) component' (manufacture self)
     (supplier self) (licenses self) (properties self).

(** [BomMetaData.__init__] *)
Definition __init__ (w : World)
    (tools : IterableArg Tool.t)
    (authors : IterableArg OrganizationalContact)
    (component : option Component.t)
    (manufacture supplier : option OrganizationalEntity)
    (licenses : IterableArg LicenseChoice)
    (properties : IterableArg Property) : t :=
  let self :=
    mk (now w)
       (SortedSet.new (or_empty tools))
       (SortedSet.new (or_empty authors))
       component manufacture supplier
       (SortedSet.new (or_empty licenses))
       (SortedSet.new (or_empty properties)) in
  if negb (truthy tools)
  then mk (timestamp self) (SortedSet.add ThisTool (BomMetaData.tools self))
          (BomMetaData.authors self) (BomMetaData.component self)
          (BomMetaData.manufacture self) (BomMetaData.supplier self)
          (BomMetaData.licenses self) (BomMetaData.properties self)
  else self.

(** [BomMetaData()], every argument left at its default. *)
Definition default (w : World) : t :=
  __init__ w ArgNone ArgNone None None None ArgNone ArgNone.

(** [hash(self.component)] for the optional described component. *)
Definition hash_optional_component (E : Interp) (c : option Component.t) : Z :=
  match c with
  | Some c => hash_Component E c
  | None => hash_NoneType E
  end.

(** The tuple that [__hash__] hashes. *)
Definition attributes (self : t) : datetime * list Tool.t * option Component.t :=
  (timestamp self, tools self, component self).

(** [BomMetaData.__hash__] *)
Definition __hash__ (E : Interp) (self : t) : Outcome Z :=
  let h_timestamp := hash_datetime E (timestamp self) in
  obind (hash_SortedSet E (tools self)) (fun h_tools =>
  let h_component := hash_optional_component E (component self) in
  Return (hash_tuple E [h_timestamp; h_tools; h_component])).

(** The argument [other : object] of [__eq__], as [isinstance] sees it. *)
Inductive object : Type :=
| Instance (other : t)
| Other.

(** [BomMetaData.__eq__] *)
Definition __eq__ (E : Interp) (self : t) (other : object) : Outcome bool :=
  match other with
  | Instance other =>
      obind (__hash__ E other) (fun h_other =>
      obind (__hash__ E self) (fun h_self =>
      Return (Z.eqb h_other h_self)))
  | Other => Return false
  end.
End BomMetaData.

(** ** class Bom *)

Module Bom.
Import Py Runtime.

Record t : Type := mk {
  uuid : UUID;
  metadata : BomMetaData.t;
  components : list Component.t;
  services : list Service.t;
  external_references : list ExternalReference.t
}.

(** Property setters.  The collection setters build a new [SortedSet]
    from the iterable they are given. *)
Definition set_uuid (self : t) (uuid' : UUID) : t :=
  mk uuid' (metadata self) (components self) (services self) (external_references self).

Definition set_metadata (self : t) (metadata' : BomMetaData.t) : t :=
  mk (uuid self) metadata' (components self) (services self) (external_references self).

Definition set_components (self : t) (components' : list Component.t) : t :=
  mk (uuid self) (metadata self) (SortedSet.new components') (services self)
     (external_references self).

Definition set_services (self : t) (services' : list Service.t) : t :=
  mk (uuid self) (metadata self) (components self) (SortedSet.new services')
     (external_references self).

Definition set_external_references (self : t)
    (external_references' : list ExternalReference.t) : t :=
  mk (uuid self) (metadata self) (components self) (services self)
     (SortedSet.new external_references').

(** [Bom.__init__] *)
Definition __init__ (w : World)
    (components : IterableArg Component.t)
    (services : IterableArg Service.t)
    (external_references : IterableArg ExternalReference.t) : t :=
  mk (uuid4 w)
     (BomMetaData.default w)
     (SortedSet.new (or_empty components))
     (SortedSet.new (or_empty services))
     (SortedSet.new (or_empty external_references)).

(** [Bom.from_parser]; the parser is its [get_components()]. *)
Definition from_parser (w : World) (parser : list Component.t) : t :=
  let bom := __init__ w ArgNone ArgNone ArgNone in
  mk (uuid bom) (metadata bom) (SortedSet.update (components bom) parser)
     (services bom) (external_references bom).

(** In-place insertion into the collections the properties return:
    [self.components.add(c)] and its siblings. *)
Definition components_add (self : t) (c : Component.t) : t :=
  mk (uuid self) (metadata self) (SortedSet.add c (components self)) (services self)
     (external_references self).

Definition services_add (self : t) (s : Service.t) : t :=
  mk (uuid self) (metadata self) (components self) (SortedSet.add s (services self))
     (external_references self).

Definition external_references_add (self : t) (r : ExternalReference.t) : t :=
  mk (uuid self) (metadata self) (components self) (services self)
     (SortedSet.add r (external_references self)).

(** The value a caller passes as [purl]: [None], a [str] as the
    signature announces, or a [PackageURL] as components hold. *)
Inductive PurlArg : Type :=
| PurlNone
| PurlStr (s : string)
| PurlObj (p : PackageURL.t).

(** [bool(purl)]: [None] and the empty string are false; a named
    tuple of six fields is true. *)
Definition purl_truthy (purl : PurlArg) : bool :=
  match purl with
  | PurlNone => false
  | PurlStr s => negb (String.eqb s "")
  | PurlObj _ => true
  end.

(** [x.purl == purl]: values of different types are unequal. *)
Definition purl_eq (x_purl : option PackageURL.t) (purl : PurlArg) : bool :=
  match x_purl, purl with
  | None, PurlNone => true
  | Some p, PurlObj q => bool_decide (p = q)
  | _, _ => false
  end.

(** [Bom.get_component_by_purl] *)
Definition get_component_by_purl (self : t) (purl : PurlArg) : option Component.t :=
  if purl_truthy purl then
    let found := List.filter (fun x => purl_eq (Component.purl x) purl) (components self) in
    if Nat.eqb (length found) 1 then head found else None
  else None.

Definition hex_digit (n : Z) : Ascii.ascii :=
  match String.get (Z.to_nat n) "0123456789abcdef" with
  | Some a => a
  | None => "0"%char
  end.

(** The [digits] lowest hexadecimal digits of [n], highest first. *)
Fixpoint hex (digits : nat) (n : Z) : string :=
  match digits with
  | O => ""
  | S d => hex d (n / 16) +:+ String (hex_digit (n mod 16)) ""
  end.

(** [str(uuid)]: 32 hexadecimal digits in groups of 8-4-4-4-12. *)
Definition str_UUID (u : UUID) : string :=
  let h := hex 32 (int u) in
  String.substring 0 8 h +:+ "-" +:+ String.substring 8 4 h +:+ "-" +:+
  String.substring 12 4 h +:+ "-" +:+ String.substring 16 4 h +:+ "-" +:+
  String.substring 20 12 h.

(** [Bom.get_urn_uuid] *)
Definition get_urn_uuid (self : t) : string := "urn:uuid:" +:+ str_UUID (uuid self).

(** [Bom.has_component] *)
Definition has_component (self : t) (component : Component.t) : bool :=
  SortedSet.contains component (components self).

(** [Bom.has_vulnerabilities] *)
Definition has_vulnerabilities (self : t) : bool :=
  existsb Component.has_vulnerabilities (components self).

(** *** Methods with effects *)

(** A warning passed to [warnings.warn]: category [UserWarning]; the
    message interpolates the purl of the described component. *)
Inductive Warning : Type :=
| UserWarning (described_purl : option PackageURL.t).

(** What a method call can read and change. *)
Record State : Type := mkState {
  self : t;
  warnings : list Warning
}.

Definition Method (A : Type) : Type := State -> Outcome A * State.

Definition ret {A} (a : A) : Method A := fun st => (Return a, st).

Definition bind {A B} (m : Method A) (k : A -> Method B) : Method B :=
  fun st =>
    match m st with
    | (Return a, st') => k a st'
    | (Raise e, st') => (Raise e, st')
    end.

Definition raise {A} (e : Exn) : Method A := fun st => (Raise e, st).

(** [warnings.warn(message, UserWarning)]: the warning goes to the
    stream of the process, under the default filters, which turn no
    warning into an exception. *)
Definition warn (w : Warning) : Method unit :=
  fun st => (Return tt, mkState (self st) (warnings st ++ [w])).

Definition get_self : Method t := fun st => (Return (self st), st).

Definition put_self (b : t) : Method unit :=
  fun st => (Return tt, mkState b (warnings st)).

Declare Scope method_scope.
Delimit Scope method_scope with method.
Notation "x <- m ;; k" := (bind m (fun x => k))
  (at level 100, m at next level, right associativity) : method_scope.
Notation "m ;; k" := (bind m (fun _ => k))
  (at level 100, right associativity) : method_scope.

(** The identifiers known in the document. *)
Definition all_bom_refs (self : t) : gset string :=
  list_to_set (match BomMetaData.component (metadata self) with
               | Some c => [Component.bom_ref c]
               | None => []
               end)
  ∪ list_to_set (Component.bom_ref <$> components self)
  ∪ list_to_set (Service.bom_ref <$> services self).

(** The identifiers that components declare as dependencies. *)
Definition all_dependency_bom_refs (self : t) : gset string :=
  ⋃ (Component.dependencies <$> components self).

(** [Bom.validate].  A [Component] is true as a condition whenever it is
    not [None]; a set of identifiers is true when it is not empty. *)
Definition validate : Method bool :=
  (self <- get_self ;;
   let dependency_diff := all_dependency_bom_refs self ∖ all_bom_refs self in
   if bool_decide (0 < size dependency_diff)%nat
   then raise (UnknownComponentDependencyException dependency_diff)
   else
     (match BomMetaData.component (metadata self) with
      | Some c =>
          if bool_decide (Component.dependencies c = ∅)
          then warn (UserWarning (Component.purl c))
          else ret tt
      | None => ret tt
      end ;;
      ret true))%method.

(** The tuple that [__hash__] hashes. *)
Definition attributes (self : t)
  : UUID * BomMetaData.t * list Component.t * list Service.t * list ExternalReference.t :=
  (uuid self, metadata self, components self, services self, external_references self).

(** [Bom.__hash__] *)
Definition __hash__ (E : Interp) (self : t) : Outcome Z :=
  let h_uuid := hash_UUID (uuid self) in
  obind (BomMetaData.__hash__ E (metadata self)) (fun h_metadata =>
  let h_components := hash_tuple E (hash_Component E <$> components self) in
  let h_services := hash_tuple E (hash_Service E <$> services self) in
  let h_external_references :=
    hash_tuple E (hash_ExternalReference E <$> external_references self) in
  Return (hash_tuple E
            [h_uuid; h_metadata; h_components; h_services; h_external_references])).

(** The argument [other : object] of [__eq__], as [isinstance] sees it. *)
Inductive object : Type :=
| Instance (other : t)
| Other.

(** [Bom.__eq__] *)
Definition __eq__ (E : Interp) (self : t) (other : object) : Outcome bool :=
  match other with
  | Instance other =>
      obind (__hash__ E other) (fun h_other =>
      obind (__hash__ E self) (fun h_self =>
      Return (Z.eqb h_other h_self)))
  | Other => Return false
  end.

(** *** The operations of a document, as calls on one instance *)

Inductive Call : Type :=
| call_validate
| call_has_component (component : Component.t)
| call_has_vulnerabilities
| call_get_component_by_purl (purl : PurlArg)
| call_get_urn_uuid
| call_components_add (c : Component.t)
| call_services_add (s : Service.t)
| call_external_references_add (r : ExternalReference.t)
| call_set_metadata (metadata : BomMetaData.t)
| call_set_components (components : list Component.t)
| call_set_services (services : list Service.t)
| call_set_external_references (external_references : list ExternalReference.t)
| call_set_uuid (uuid : UUID).

Inductive Value : Type :=
| v_None
| v_bool (b : bool)
| v_str (s : string)
| v_Component (c : Component.t).

Definition query (f : t -> Value) : Method Value :=
  (self <- get_self ;; ret (f self))%method.

Definition update (f : t -> t) : Method Value :=
  (self <- get_self ;; put_self (f self) ;; ret v_None)%method.

Definition perform (c : Call) : Method Value :=
  match c with
  | call_validate => (b <- validate ;; ret (v_bool b))%method
  | call_has_component component => query (fun self => v_bool (has_component self component))
  | call_has_vulnerabilities => query (fun self => v_bool (has_vulnerabilities self))
  | call_get_component_by_purl purl =>
      query (fun self => match get_component_by_purl self purl with
                         | Some c => v_Component c
                         | None => v_None
                         end)
  | call_get_urn_uuid => query (fun self => v_str (get_urn_uuid self))
  | call_components_add c => update (fun self => components_add self c)
  | call_services_add s => update (fun self => services_add self s)
  | call_external_references_add r => update (fun self => external_references_add self r)
  | call_set_metadata m => update (fun self => set_metadata self m)
  | call_set_components l => update (fun self => set_components self l)
  | call_set_services l => update (fun self => set_services self l)
  | call_set_external_references l => update (fun self => set_external_references self l)
  | call_set_uuid u => update (fun self => set_uuid self u)
  end.

(** The state after a sequence of calls; a raised exception is caught
    by the caller, who goes on with the next call. *)
Fixpoint perform_all (calls : list Call) (st : State) : State :=
  match calls with
  | [] => st
  | c :: calls => perform_all calls (snd (perform c st))
  end.
End Bom.

(** ** Sample documents *)

Module Samples.
Import Py Runtime.

Definition world_1 : World := mkWorld 1640944800000000 (mkUUID 1).

Definition component (name bom_ref : string) (deps : list string) : Component.t :=
  Component.mk name None bom_ref None (list_to_set deps) [].

Definition fresh (st : Bom.t) : Bom.State := Bom.mkState st [].

(** No components, no services, no described component. *)
Definition empty : Bom.t := Bom.__init__ world_1 ArgNone ArgNone ArgNone.

Definition root : Component.t := component "product" "root" [].

Definition described (b : Bom.t) (c : Component.t) : Bom.t :=
  Bom.set_metadata b (BomMetaData.set_component (Bom.metadata b) (Some c)).

(** Described component [root]; [lib-a] depends on [root]. *)
Definition scenario_a : Bom.t :=
  described (Bom.__init__ world_1 (ArgSized [component "a" "lib-a" ["root"]])
                          ArgNone ArgNone) root.

(** As [scenario_a], but [lib-a] depends on [lib-missing]. *)
Definition scenario_b : Bom.t :=
  described (Bom.__init__ world_1 (ArgSized [component "a" "lib-a" ["lib-missing"]])
                          ArgNone ArgNone) root.

(** Two components, each depending on the other. *)
Definition scenario_c : Bom.t :=
  Bom.__init__ world_1
    (ArgSized [component "a" "lib-a" ["lib-b"]; component "b" "lib-b" ["lib-a"]])
    ArgNone ArgNone.
(** A described component that itself declares an identifier nobody
    carries; [lib-a] depends on the described component. *)
Definition ghost_root : Component.t := component "product" "root" ["ghost"].

Definition scenario_ghost : Bom.t :=
  described (Bom.__init__ world_1 (ArgSized [component "a" "lib-a" ["root"]])
                          ArgNone ArgNone) ghost_root.

(** The component of [get_bom_with_component_setuptools_basic] in the
    test data. *)
Definition setuptools_purl : PackageURL.t :=
  PackageURL.mk "pypi" None "setuptools" (Some "50.3.2") (Some "extension=tar.gz") None.

Definition setuptools : Component.t :=
  Component.mk "setuptools" (Some "50.3.2") "pkg:pypi/setuptools@50.3.2?extension=tar.gz"
               (Some setuptools_purl) ∅ [].

Definition bom_with_component_setuptools_basic : Bom.t :=
  Bom.__init__ world_1 (ArgSized [setuptools]) ArgNone ArgNone.

(** Two documents that differ in nothing but the uuid. *)
Definition twin_1 : Bom.t := Bom.set_uuid empty (mkUUID 0).
Definition twin_2 : Bom.t := Bom.set_uuid empty (mkUUID (2 ^ 61 - 1)).

(** A run of calls on one document, the [uuid] setter not among them. *)
Definition session : list Bom.Call :=
  [Bom.call_validate;
   Bom.call_components_add setuptools;
   Bom.call_get_urn_uuid;
   Bom.call_has_component root;
   Bom.call_has_vulnerabilities;
   Bom.call_get_component_by_purl Bom.PurlNone;
   Bom.call_set_components [];
   Bom.call_validate].

(** A tool supplied by the caller. *)
Definition my_tool : Tool.t := Tool.mk (Some "acme") (Some "scanner") (Some "1.0").

(** An interpreter in which every class involved is hashable. *)
Definition hashing : Interp :=
  mkInterp (fun t => t mod hash_modulus) 0
           (fun hs => fold_left (fun acc h => (31 * acc + h) mod hash_modulus) hs 7)
           (fun tools => Return (Z.of_nat (length tools)))
           (fun c => Z.of_nat (String.length (Component.bom_ref c)))
           (fun s => Z.of_nat (String.length (Service.bom_ref s)))
           (fun r => Z.of_nat (String.length (ExternalReference.url r))).

(** The same interpreter with the [SortedSet] of sortedcontainers, a
    class that defines [__eq__] and no [__hash__]. *)
Definition unhashable : Interp :=
  mkInterp (hash_datetime hashing) (hash_NoneType hashing) (hash_tuple hashing)
           (fun _ => Raise (TypeError "unhashable type: 'SortedSet'"))
           (hash_Component hashing) (hash_Service hashing)
           (hash_ExternalReference hashing).
End Samples.

Import Py Runtime.

(** ** Vocabulary of the specification *)

(** The identifier universe, in the words of the specification: the
    identifier of the described component if one is set, of a component,
    or of a service. *)
Definition in_universe (b : Bom.t) (r : string) : Prop :=
  (exists c, BomMetaData.component (Bom.metadata b) = Some c /\ Component.bom_ref c = r)
  \/ (exists c, c ∈ Bom.components b /\ Component.bom_ref c = r)
  \/ (exists s, s ∈ Bom.services b /\ Service.bom_ref s = r).

(** A declared dependency identifier: one listed by some component of
    the components collection. *)
Definition declared_dependency (b : Bom.t) (r : string) : Prop :=
  exists c, c ∈ Bom.components b /\ r ∈ Component.dependencies c.

(** Every declared dependency identifier is in the universe. *)
Definition resolved (b : Bom.t) : Prop :=
  forall r, declared_dependency b r -> in_universe b r.

(** The warnings that the advisory check of [validate] emits. *)
Definition advisory (b : Bom.t) : list Bom.Warning :=
  match BomMetaData.component (Bom.metadata b) with
  | Some c =>
      if bool_decide (Component.dependencies c = ∅)
      then [Bom.UserWarning (Component.purl c)]
      else []
  | None => []
  end.

(** No two of the values are equal for [__eq__]. *)
Fixpoint all_distinct `{Entity A} (l : list A) : bool :=
  match l with
  | [] => true
  | x :: l' => negb (existsb (py_eq x) l') && all_distinct l'
  end.

(** The representation invariant of a document: each of its three
    collections is a sorted set. *)
Definition well_formed (b : Bom.t) : Prop :=
  SortedSet.sorted (Bom.components b)
  /\ SortedSet.sorted (Bom.services b)
  /\ SortedSet.sorted (Bom.external_references b).

(** The grouping of 32 hexadecimal digits that [str(uuid)] prints. *)
Definition grouped (h : string) : string :=
  String.substring 0 8 h +:+ "-" +:+ String.substring 8 4 h +:+ "-" +:+
  String.substring 12 4 h +:+ "-" +:+ String.substring 16 4 h +:+ "-" +:+
  String.substring 20 12 h.

(** * Properties *)

(** ** Facts about sorted sets *)

Module SortedSetFacts.
Import SortedSet.
Section facts.
Context {A : Type} `{Entity A}.

Lemma contains_eq x y s : py_eq x y = true -> contains x s = contains y s.
Proof.
  intros Hxy. unfold contains. induction s as [|z s IH]; simpl; [done|].
  rewrite IH. f_equal.
  destruct (py_eq x z) eqn:Hxz, (py_eq y z) eqn:Hyz; try done.
  - rewrite <- Hyz. symmetry. eauto using py_eq_trans, py_eq_sym.
  - rewrite <- Hxz. eauto using py_eq_trans.
Qed.

Lemma contains_insort x v s : contains x (insort v s) = py_eq x v || contains x s.
Proof.
  unfold contains. induction s as [|y s IH]; simpl; [done|].
  destruct (py_lt v y); simpl; [done|].
  rewrite IH. by destruct (py_eq x v), (py_eq x y).
Qed.

Lemma contains_add x v s : contains x (add v s) = py_eq x v || contains x s.
Proof.
  unfold add. destruct (contains v s) eqn:Hv; [|apply contains_insort].
  destruct (py_eq x v) eqn:Hxv; [|done].
  simpl. by rewrite (contains_eq x v).
Qed.

Lemma contains_update x s l :
  contains x (update s l) = contains x s || existsb (py_eq x) l.
Proof.
  unfold update. revert s. induction l as [|v l IH]; intros s; simpl.
  - by rewrite orb_false_r.
  - rewrite IH, contains_add. by destruct (contains x s), (py_eq x v).
Qed.

Lemma add_member v s : contains v s = true -> add v s = s.
Proof. unfold add. by intros ->. Qed.

Lemma add_value_equal v v' s : py_eq v v' = true -> add v' (add v s) = add v s.
Proof.
  intros Hvv'. apply add_member.
  rewrite contains_add. rewrite (py_eq_sym _ _ Hvv'). done.
Qed.

Lemma length_insort v s : length (insort v s) = S (length s).
Proof.
  induction s as [|y s IH]; simpl; [done|].
  destruct (py_lt v y); simpl; by rewrite ?IH.
Qed.

Lemma Forall_insort (P : A -> Prop) v s : P v -> Forall P s -> Forall P (insort v s).
Proof.
  intros Hv. induction 1 as [|y s Hy Hs IH]; simpl.
  - by constructor.
  - destruct (py_lt v y); repeat constructor; done.
Qed.

Lemma insort_sorted v s : sorted s -> contains v s = false -> sorted (insort v s).
Proof.
  unfold sorted. induction 1 as [|y s Hs IH Hy]; simpl; intros Hv.
  - repeat constructor.
  - apply orb_false_iff in Hv as [Hvy Hv].
    destruct (py_lt v y) eqn:Hlt.
    + constructor; [by constructor|]. constructor; [done|].
      eapply Forall_impl; [exact Hy|]. simpl. eauto using py_lt_trans.
    + constructor; [by apply IH|]. apply Forall_insort; [|done].
      destruct (py_lt y v) eqn:Hyv; [done|].
      by rewrite (py_lt_total v y) in Hvy.
Qed.

Lemma add_sorted v s : sorted s -> sorted (add v s).
Proof.
  intros Hs. unfold add. destruct (contains v s) eqn:Hv; [done|].
  by apply insort_sorted.
Qed.

Lemma update_sorted s l : sorted s -> sorted (update s l).
Proof.
  unfold update. revert s. induction l as [|v l IH]; intros s Hs; simpl; [done|].
  by apply IH, add_sorted.
Qed.

Lemma new_sorted l : sorted (new l).
Proof. apply update_sorted. constructor. Qed.

(** The head of a strictly sorted sequence is below every value equal
    to a later member. *)
Lemma head_below x s z :
  Forall (fun w => py_lt x w = true) s -> contains z s = true -> py_lt x z = true.
Proof.
  intros Hx Hz. apply existsb_exists in Hz as (w & Hw & Hzw).
  rewrite Forall_forall in Hx. rewrite <- list_elem_of_In in Hw.
  specialize (Hx w Hw).
  destruct (py_lt x z) eqn:Hxz; [done|].
  destruct (py_lt z x) eqn:Hzx.
  - assert (py_lt z w = true) by eauto using py_lt_trans.
    by rewrite (py_lt_irrefl z w) in *.
  - assert (py_eq x w = true) by eauto using py_eq_trans, py_lt_total.
    by rewrite (py_lt_irrefl x w) in *.
Qed.

(** A strictly sorted sequence is determined, up to [__eq__], by its
    members: no other iteration order is possible. *)
Lemma sorted_unique s1 s2 :
  sorted s1 -> sorted s2 ->
  (forall x, contains x s1 = contains x s2) ->
  Forall2 (fun x y => py_eq x y = true) s1 s2.
Proof.
  unfold sorted. intros Hs1. revert s2.
  induction Hs1 as [|x s1 Hs1 IH Hx]; intros s2 Hs2 Hmem.
  - destruct s2 as [|y s2]; [constructor|].
    specialize (Hmem y). simpl in Hmem. by rewrite py_eq_refl in Hmem.
  - destruct Hs2 as [|y s2 Hs2 Hy].
    { specialize (Hmem x). simpl in Hmem. by rewrite py_eq_refl in Hmem. }
    pose proof (fun z => head_below x s1 z Hx) as Hlow1.
    pose proof (fun z => head_below y s2 z Hy) as Hlow2.
    assert (Hxy : py_eq x y = true).
    { pose proof (Hmem x) as Hmx. pose proof (Hmem y) as Hmy.
      unfold contains in Hmx, Hmy, Hlow1, Hlow2. simpl in Hmx, Hmy.
      rewrite py_eq_refl in Hmx, Hmy. rewrite orb_true_l in Hmx, Hmy.
      destruct (py_eq x y) eqn:Hxy; [done|]. simpl in Hmx. symmetry in Hmx.
      apply Hlow2 in Hmx.
      destruct (py_eq y x) eqn:Hyx; [by rewrite (py_eq_sym y x) in Hxy|].
      simpl in Hmy. apply Hlow1 in Hmy.
      assert (py_lt x x = true) by eauto using py_lt_trans.
      by rewrite (py_lt_irrefl x x) in * by apply py_eq_refl. }
    constructor; [done|]. apply IH; [done|]. intros z.
    specialize (Hmem z). simpl in Hmem.
    destruct (contains z s1) eqn:Hz1, (contains z s2) eqn:Hz2; try done.
    + rewrite orb_true_r, orb_false_r in Hmem.
      apply Hlow1 in Hz1.
      assert (py_eq x z = true) by eauto using py_eq_trans, py_eq_sym.
      by rewrite (py_lt_irrefl x z) in *.
    + rewrite orb_true_r, orb_false_r in Hmem.
      apply Hlow2 in Hz2.
      assert (py_eq y z = true) by eauto using py_eq_trans, py_eq_sym.
      by rewrite (py_lt_irrefl y z) in *.
Qed.

Lemma existsb_Permutation (f : A -> bool) l l' :
  l ≡ₚ l' -> existsb f l = existsb f l'.
Proof.
  induction 1 as [|x l l' _ IH|x y l|l1 l2 l3 _ IH1 _ IH2]; simpl.
  - done.
  - by rewrite IH.
  - by destruct (f x), (f y).
  - by rewrite IH1.
Qed.

(** The iteration order of a [SortedSet] does not depend on the order
    in which its values were supplied. *)
Lemma new_Permutation l l' :
  l ≡ₚ l' -> Forall2 (fun x y => py_eq x y = true) (new l) (new l').
Proof.
  intros Hp. apply sorted_unique; try apply new_sorted.
  intros x. unfold new. rewrite !contains_update.
  by rewrite (existsb_Permutation _ _ _ Hp).
Qed.
End facts.
End SortedSetFacts.


(** ** The consistency validator *)

Lemma elem_of_all_bom_refs b r : r ∈ Bom.all_bom_refs b <-> in_universe b r.
Proof.
  unfold Bom.all_bom_refs, in_universe.
  rewrite !elem_of_union, !elem_of_list_to_set, !list_elem_of_fmap.
  split.
  - intros [[Hm|(c & -> & Hc)]|(x & -> & Hx)]; [left|right; left; eauto|right; right; eauto].
    destruct (BomMetaData.component (Bom.metadata b)) as [c|]; [|by apply not_elem_of_nil in Hm].
    apply list_elem_of_singleton in Hm. eauto.
  - intros [(c & -> & <-)|[(c & Hc & <-)|(x & Hx & <-)]]; [left; left|left; right; eauto|right; eauto].
    by apply list_elem_of_singleton.
Qed.

Lemma elem_of_all_dependency_bom_refs b r :
  r ∈ Bom.all_dependency_bom_refs b <-> declared_dependency b r.
Proof.
  unfold Bom.all_dependency_bom_refs, declared_dependency.
  rewrite elem_of_union_list. split.
  - intros (X & HX & Hr). apply list_elem_of_fmap in HX as (c & -> & Hc). eauto.
  - intros (c & Hc & Hr). exists (Component.dependencies c). split; [|done].
    apply list_elem_of_fmap. eauto.
Qed.

Lemma elem_of_dependency_diff b r :
  r ∈ Bom.all_dependency_bom_refs b ∖ Bom.all_bom_refs b
  <-> declared_dependency b r /\ ~ in_universe b r.
Proof.
  by rewrite elem_of_difference, elem_of_all_dependency_bom_refs, elem_of_all_bom_refs.
Qed.

Lemma dependency_diff_empty b :
  Bom.all_dependency_bom_refs b ∖ Bom.all_bom_refs b = ∅ <-> resolved b.
Proof.
  unfold resolved. split.
  - intros Hempty r Hr.
    destruct (decide (r ∈ Bom.all_bom_refs b)) as [Hin|Hout].
    + by apply elem_of_all_bom_refs.
    + assert (r ∈ Bom.all_dependency_bom_refs b ∖ Bom.all_bom_refs b) as Hd.
      { apply elem_of_difference. split; [|done]. by apply elem_of_all_dependency_bom_refs. }
      rewrite Hempty in Hd. by apply not_elem_of_empty in Hd.
  - intros Hres. apply set_eq. intros r. rewrite elem_of_dependency_diff.
    split; [|by intros ?%not_elem_of_empty]. intros [Hd Hn]. destruct Hn. auto.
Qed.

(** [validate], one equation per way out. *)
Lemma validate_raises st :
  Bom.all_dependency_bom_refs (Bom.self st) ∖ Bom.all_bom_refs (Bom.self st) <> ∅ ->
  Bom.validate st =
    (Raise (UnknownComponentDependencyException
              (Bom.all_dependency_bom_refs (Bom.self st) ∖ Bom.all_bom_refs (Bom.self st))),
     st).
Proof.
  intros Hne. unfold Bom.validate, Bom.bind, Bom.get_self, Bom.raise.
  rewrite bool_decide_eq_true_2; [done|].
  destruct (decide (size (Bom.all_dependency_bom_refs (Bom.self st)
                           ∖ Bom.all_bom_refs (Bom.self st)) = 0%nat)) as [H0|H0]; [|lia].
  by apply size_empty_iff, leibniz_equiv in H0.
Qed.

Lemma validate_returns st :
  Bom.all_dependency_bom_refs (Bom.self st) ∖ Bom.all_bom_refs (Bom.self st) = ∅ ->
  Bom.validate st =
    (Return true, Bom.mkState (Bom.self st) (Bom.warnings st ++ advisory (Bom.self st))).
Proof.
  intros He. unfold Bom.validate, Bom.bind, Bom.get_self, Bom.raise, advisory.
  rewrite He, bool_decide_eq_false_2 by (rewrite size_empty; lia).
  destruct st as [b ws]. simpl.
  destruct (BomMetaData.component (Bom.metadata b)) as [c|]; simpl.
  - destruct (bool_decide (Component.dependencies c = ∅)); simpl; [done|].
    by rewrite app_nil_r.
  - by rewrite app_nil_r.
Qed.

(** [validate] reads the document and leaves it as it was. *)
Lemma validate_self st : Bom.self (snd (Bom.validate st)) = Bom.self st.
Proof.
  destruct (decide (Bom.all_dependency_bom_refs (Bom.self st)
                      ∖ Bom.all_bom_refs (Bom.self st) = ∅)) as [He|Hne].
  - by rewrite validate_returns.
  - by rewrite validate_raises.
Qed.

(** C1: when some declared dependency identifier is outside the
    identifier universe, [validate] raises
    [UnknownComponentDependencyException], and the set it reports is
    exactly declared minus universe: an identifier is reported if and only
    if some component declares it and nothing in the document carries it. *)
Theorem validate_reports_every_unresolved_reference (st : Bom.State) :
  (exists r, declared_dependency (Bom.self st) r /\ ~ in_universe (Bom.self st) r) ->
  exists unresolved : gset string,
    Bom.validate st = (Raise (UnknownComponentDependencyException unresolved), st)
    /\ unresolved
       = Bom.all_dependency_bom_refs (Bom.self st) ∖ Bom.all_bom_refs (Bom.self st)
    /\ forall r, r ∈ unresolved
                 <-> declared_dependency (Bom.self st) r /\ ~ in_universe (Bom.self st) r.
Proof.
  intros (r & Hr).
  eexists. split; [|split; [reflexivity|apply elem_of_dependency_diff]].
  apply validate_raises. intros Hempty.
  apply elem_of_dependency_diff in Hr. rewrite Hempty in Hr.
  by apply not_elem_of_empty in Hr.
Qed.

(** Scenario B: [lib-a] depends on [lib-missing], which nothing carries. *)
Lemma validate_reports_every_unresolved_reference_witness :
  exists unresolved : gset string,
    Bom.validate (Samples.fresh Samples.scenario_b)
    = (Raise (UnknownComponentDependencyException unresolved),
       Samples.fresh Samples.scenario_b)
    /\ unresolved
       = Bom.all_dependency_bom_refs Samples.scenario_b ∖ Bom.all_bom_refs Samples.scenario_b
    /\ forall r, r ∈ unresolved
                 <-> declared_dependency Samples.scenario_b r
                     /\ ~ in_universe Samples.scenario_b r.
Proof.
  apply (validate_reports_every_unresolved_reference (Samples.fresh Samples.scenario_b)).
  exists "lib-missing". apply elem_of_dependency_diff.
  refine (bool_decide_unpack _ _). vm_compute. exact I.
Defined.

(** C2: when every identifier that a component declares as a dependency
    is in the identifier universe, [validate] returns [True] and raises
    nothing.  This covers the document built with no component, no
    service and no described component, and the document of two
    components that depend on each other: only the existence of the
    identifiers is checked. *)
Theorem validate_succeeds_when_dependencies_resolve :
  (forall st : Bom.State,
      (forall r, declared_dependency (Bom.self st) r -> in_universe (Bom.self st) r) ->
      fst (Bom.validate st) = Return true)
  /\ (forall (w : World) (ws : list Bom.Warning),
        Bom.validate (Bom.mkState (Bom.__init__ w ArgNone ArgNone ArgNone) ws)
        = (Return true, Bom.mkState (Bom.__init__ w ArgNone ArgNone ArgNone) ws))
  /\ (forall (w : World) (ws : list Bom.Warning) (c1 c2 : Component.t),
        Component.dependencies c1 = {[ Component.bom_ref c2 ]} ->
        Component.dependencies c2 = {[ Component.bom_ref c1 ]} ->
        py_eq c1 c2 = false ->
        Bom.validate (Bom.mkState (Bom.__init__ w (ArgSized [c1; c2]) ArgNone ArgNone) ws)
        = (Return true,
           Bom.mkState (Bom.__init__ w (ArgSized [c1; c2]) ArgNone ArgNone) ws)).
Proof.
  split; [|split].
  - intros st Hres. rewrite validate_returns; [done|].
    by apply dependency_diff_empty.
  - intros w ws. rewrite validate_returns.
    + simpl. by rewrite app_nil_r.
    + apply dependency_diff_empty. intros r (c & Hc & _). simpl in Hc.
      by apply not_elem_of_nil in Hc.
  - intros w ws c1 c2 Hdep1 Hdep2 Hne. rewrite validate_returns.
    + simpl. by rewrite app_nil_r.
    + apply dependency_diff_empty. intros r (c & Hc & Hr).
      right; left. simpl in Hc |- *.
      assert (Hmem : forall x, x ∈ SortedSet.new [c1; c2] <-> x = c1 \/ x = c2).
      { intros x. unfold SortedSet.new, SortedSet.update, SortedSet.add.
        cbn [fold_left SortedSet.contains existsb SortedSet.insort].
        rewrite (py_eq_sym_false c1 c2 Hne).
        cbn [orb SortedSet.insort].
        destruct (py_lt c2 c1); rewrite !elem_of_cons, elem_of_nil; tauto. }
      apply Hmem in Hc as [->| ->].
      * exists c2. rewrite Hmem. split; [by right|].
        rewrite Hdep1 in Hr. by apply elem_of_singleton in Hr.
      * exists c1. rewrite Hmem. split; [by left|].
        rewrite Hdep2 in Hr. by apply elem_of_singleton in Hr.
Qed.

(** Scenarios C and D: the two-component cycle and the empty document. *)
Lemma validate_succeeds_when_dependencies_resolve_witness :
  fst (Bom.validate (Samples.fresh Samples.scenario_c)) = Return true
  /\ fst (Bom.validate (Samples.fresh Samples.empty)) = Return true.
Proof.
  split.
  - apply (proj1 validate_succeeds_when_dependencies_resolve
             (Samples.fresh Samples.scenario_c)).
    apply dependency_diff_empty. vm_compute. reflexivity.
  - apply (proj1 validate_succeeds_when_dependencies_resolve
             (Samples.fresh Samples.empty)).
    apply dependency_diff_empty. vm_compute. reflexivity.
Defined.

(** C3: on a document that passes the hard check, [validate] returns
    [True] in every case and raises nothing; it emits exactly one
    warning when the metadata has a described component whose set of
    dependency identifiers is empty, and no warning when there is no
    described component or when the described component has a
    dependency. *)
Theorem validate_advisory_warning (st : Bom.State) :
  (forall r, declared_dependency (Bom.self st) r -> in_universe (Bom.self st) r) ->
  fst (Bom.validate st) = Return true
  /\ Bom.self (snd (Bom.validate st)) = Bom.self st
  /\ (forall c,
         BomMetaData.component (Bom.metadata (Bom.self st)) = Some c ->
         Component.dependencies c = ∅ ->
         Bom.warnings (snd (Bom.validate st))
         = (Bom.warnings st ++ [Bom.UserWarning (Component.purl c)])%list)
  /\ (BomMetaData.component (Bom.metadata (Bom.self st)) = None ->
      Bom.warnings (snd (Bom.validate st)) = Bom.warnings st)
  /\ (forall c,
         BomMetaData.component (Bom.metadata (Bom.self st)) = Some c ->
         Component.dependencies c <> ∅ ->
         Bom.warnings (snd (Bom.validate st)) = Bom.warnings st).
Proof.
  intros Hres. rewrite validate_returns by by apply dependency_diff_empty.
  unfold advisory. simpl. repeat split.
  - intros c -> ->. by rewrite bool_decide_eq_true_2.
  - intros ->. by rewrite app_nil_r.
  - intros c -> Hne. rewrite bool_decide_eq_false_2 by done. by rewrite app_nil_r.
Qed.

(** Scenario A: the described component [root] has no dependency of its
    own, so the warning is emitted. *)
Lemma validate_advisory_warning_witness :
  fst (Bom.validate (Samples.fresh Samples.scenario_a)) = Return true
  /\ Bom.warnings (snd (Bom.validate (Samples.fresh Samples.scenario_a)))
     = [Bom.UserWarning None].
Proof.
  assert (Hres : forall r, declared_dependency Samples.scenario_a r ->
                           in_universe Samples.scenario_a r).
  { apply dependency_diff_empty. vm_compute. reflexivity. }
  destruct (validate_advisory_warning (Samples.fresh Samples.scenario_a) Hres)
    as (Hret & _ & Hwarn & _).
  split; [exact Hret|].
  apply (Hwarn Samples.root); reflexivity.
Defined.

(** C4: the outcome of [validate] (the value returned, or the exception
    with its set of unresolved references) is a function of the document
    alone; the call leaves the document as it was, attribute by attribute;
    so a second call on the unmodified document ends as the first. *)
Theorem validate_deterministic_and_idempotent (st st' : Bom.State) :
  Bom.self st = Bom.self st' ->
  fst (Bom.validate st) = fst (Bom.validate st')
  /\ Bom.self (snd (Bom.validate st)) = Bom.self st
  /\ Bom.attributes (Bom.self (snd (Bom.validate st))) = Bom.attributes (Bom.self st)
  /\ fst (Bom.validate (snd (Bom.validate st))) = fst (Bom.validate st).
Proof.
  intros Hself.
  pose proof validate_self as Hkeep.
  assert (Hfun : forall s s', Bom.self s = Bom.self s' ->
                              fst (Bom.validate s) = fst (Bom.validate s')).
  { intros s s' Hs.
    destruct (decide (Bom.all_dependency_bom_refs (Bom.self s)
                        ∖ Bom.all_bom_refs (Bom.self s) = ∅)) as [He|Hne].
    - rewrite (validate_returns s), (validate_returns s') by congruence. done.
    - rewrite (validate_raises s), (validate_raises s') by congruence.
      simpl. by rewrite Hs. }
  repeat split.
  - by apply Hfun.
  - apply Hkeep.
  - by rewrite Hkeep.
  - apply Hfun, Hkeep.
Qed.

(** The outcome on scenario B does not depend on the warnings already
    emitted; a second call on scenario A ends as the first. *)
Lemma validate_deterministic_and_idempotent_witness :
  fst (Bom.validate (Samples.fresh Samples.scenario_b))
  = fst (Bom.validate (Bom.mkState Samples.scenario_b [Bom.UserWarning None]))
  /\ fst (Bom.validate (snd (Bom.validate (Samples.fresh Samples.scenario_a))))
     = fst (Bom.validate (Samples.fresh Samples.scenario_a)).
Proof.
  split.
  - apply (validate_deterministic_and_idempotent
             (Samples.fresh Samples.scenario_b)
             (Bom.mkState Samples.scenario_b [Bom.UserWarning None])).
    reflexivity.
  - apply (validate_deterministic_and_idempotent
             (Samples.fresh Samples.scenario_a) (Samples.fresh Samples.scenario_a)).
    reflexivity.
Defined.

(** C9: the identifiers that the described component of the metadata
    itself declares are not looked at: when that component declares an
    identifier outside the universe, is not a member of the components
    collection, and every identifier declared by a member of the
    collection resolves, [validate] still returns [True]. *)
Theorem validate_ignores_described_component_dependencies
    (st : Bom.State) (described : Component.t) :
  BomMetaData.component (Bom.metadata (Bom.self st)) = Some described ->
  (exists r, r ∈ Component.dependencies described /\ ~ in_universe (Bom.self st) r) ->
  Bom.has_component (Bom.self st) described = false ->
  (forall r, declared_dependency (Bom.self st) r -> in_universe (Bom.self st) r) ->
  Bom.validate st = (Return true, st).
Proof.
  intros Hdesc (r & Hr & _) _ Hres.
  rewrite validate_returns by by apply dependency_diff_empty.
  unfold advisory. rewrite Hdesc.
  rewrite bool_decide_eq_false_2.
  - destruct st. simpl. by rewrite app_nil_r.
  - intros Hempty. rewrite Hempty in Hr. by apply not_elem_of_empty in Hr.
Qed.

(** The described component declares [ghost], which nothing carries. *)
Lemma validate_ignores_described_component_dependencies_witness :
  ("ghost" ∈ Component.dependencies Samples.ghost_root
   /\ "ghost" ∉ Bom.all_bom_refs Samples.scenario_ghost)
  /\ Bom.validate (Samples.fresh Samples.scenario_ghost)
     = (Return true, Samples.fresh Samples.scenario_ghost).
Proof.
  assert (Hghost : "ghost" ∈ Component.dependencies Samples.ghost_root
                   /\ "ghost" ∉ Bom.all_bom_refs Samples.scenario_ghost).
  { split; refine (bool_decide_unpack _ _); vm_compute; exact I. }
  split; [exact Hghost|].
  apply (validate_ignores_described_component_dependencies
           (Samples.fresh Samples.scenario_ghost) Samples.ghost_root).
  - reflexivity.
  - exists "ghost". destruct Hghost as [Hin Hout]. split; [exact Hin|].
    intros Hu. by apply Hout, elem_of_all_bom_refs.
  - vm_compute. reflexivity.
  - apply dependency_diff_empty. vm_compute. reflexivity.
Defined.

(** ** Lookup by package URL *)

Lemma elem_of_filter_bool {A} (f : A -> bool) (l : list A) (x : A) :
  x ∈ List.filter f l <-> x ∈ l /\ f x = true.
Proof. rewrite !list_elem_of_In. apply filter_In. Qed.

Lemma filter_singleton_NoDup {A} (f : A -> bool) (l : list A) (c : A) :
  NoDup l ->
  List.filter f l = [c]
  <-> c ∈ l /\ f c = true /\ forall c', c' ∈ l -> f c' = true -> c' = c.
Proof.
  induction 1 as [|x l Hx Hnd IH]; simpl.
  - split; [done|]. intros (Hc & _). by apply elem_of_nil in Hc.
  - destruct (f x) eqn:Hfx.
    + split.
      * intros [= -> Hfil]. split; [by left|]. split; [done|].
        intros c' Hc' Hfc'. apply elem_of_cons in Hc' as [->|Hin]; [done|].
        assert (c' ∈ List.filter f l) as Hmem by by apply elem_of_filter_bool.
        rewrite Hfil in Hmem. by apply elem_of_nil in Hmem.
      * intros (Hc & Hfc & Huniq).
        assert (x = c) as -> by (apply Huniq; [by left|done]).
        f_equal. destruct (List.filter f l) as [|y ys] eqn:Hfil; [done|].
        assert (y ∈ List.filter f l) as Hy by (rewrite Hfil; by left).
        apply elem_of_filter_bool in Hy as [Hyl Hfy].
        assert (y = c) as -> by (apply Huniq; [by right|done]). done.
    + rewrite IH. split; intros (Hc & Hfc & Huniq).
      * split; [by right|]. split; [done|].
        intros c' Hc' Hfc'. apply elem_of_cons in Hc' as [->|Hin]; [congruence|auto].
      * split; [|split; [done|]].
        -- apply elem_of_cons in Hc as [->|Hc]; [congruence|done].
        -- intros c' Hc' Hfc'. apply Huniq; [by right|done].
Qed.

Lemma sorted_NoDup `{Entity A} (s : list A) : SortedSet.sorted s -> NoDup s.
Proof.
  unfold SortedSet.sorted. induction 1 as [|x s Hs IH Hx]; constructor; [|done].
  intros Hin. rewrite Forall_forall in Hx. specialize (Hx x Hin).
  by rewrite (py_lt_irrefl x x) in Hx by apply py_eq_refl.
Qed.

(** C10: [get_component_by_purl] returns a component exactly when the
    purl passed is true and one single member of the components
    collection has that purl, and then it returns that member; when the
    purl is [None] or empty, or when the number of members having it is
    zero or at least two, it returns [None]. *)
Theorem get_component_by_purl_unique_match (b : Bom.t) (purl : Bom.PurlArg) :
  SortedSet.sorted (Bom.components b) ->
  let has_purl := fun x : Component.t => Bom.purl_eq (Component.purl x) purl in
  (forall c,
      Bom.get_component_by_purl b purl = Some c
      <-> Bom.purl_truthy purl = true
          /\ c ∈ Bom.components b /\ has_purl c = true
          /\ forall c', c' ∈ Bom.components b -> has_purl c' = true -> c' = c)
  /\ (Bom.get_component_by_purl b purl = None
      <-> Bom.purl_truthy purl = false
          \/ length (List.filter has_purl (Bom.components b)) <> 1%nat).
Proof.
  intros Hsorted has_purl.
  assert (Hsome : forall c,
             Bom.get_component_by_purl b purl = Some c
             <-> Bom.purl_truthy purl = true
                 /\ List.filter has_purl (Bom.components b) = [c]).
  { intros c. unfold Bom.get_component_by_purl. fold has_purl.
    destruct (Bom.purl_truthy purl); [|by split; [|intros [? _]]].
    destruct (List.filter has_purl (Bom.components b)) as [|x [|y found]]; simpl.
    - by split; [|intros [_ ?]].
    - split; [by intros [= ->]|by intros [_ [= ->]]].
    - by split; [|intros [_ ?]]. }
  split.
  - intros c. rewrite Hsome.
    by rewrite (filter_singleton_NoDup _ _ _ (sorted_NoDup _ Hsorted)).
  - unfold Bom.get_component_by_purl. fold has_purl.
    destruct (Bom.purl_truthy purl); [|by split; [left|]].
    destruct (List.filter has_purl (Bom.components b)) as [|x [|y found]]; simpl.
    + split; [by right|done].
    + split; [done|]. by intros [?|?].
    + split; [by right|done].
Qed.

(** The test document with [setuptools]: found by its [PackageURL], not
    found by a string. *)
Lemma get_component_by_purl_unique_match_witness :
  SortedSet.sorted (Bom.components Samples.bom_with_component_setuptools_basic)
  /\ Bom.get_component_by_purl Samples.bom_with_component_setuptools_basic
       (Bom.PurlObj Samples.setuptools_purl) = Some Samples.setuptools
  /\ Bom.get_component_by_purl Samples.bom_with_component_setuptools_basic
       (Bom.PurlStr "pkg:pypi/setuptools@50.3.2?extension=tar.gz") = None.
Proof.
  assert (Hsorted : SortedSet.sorted
                      (Bom.components Samples.bom_with_component_setuptools_basic))
    by apply SortedSetFacts.new_sorted.
  split; [exact Hsorted|]. split.
  - apply (get_component_by_purl_unique_match
             Samples.bom_with_component_setuptools_basic
             (Bom.PurlObj Samples.setuptools_purl) Hsorted).
    split; [reflexivity|]. split; [by left|]. split; [by vm_compute|].
    intros c' Hc' _. by apply list_elem_of_singleton in Hc'.
  - apply (get_component_by_purl_unique_match
             Samples.bom_with_component_setuptools_basic
             (Bom.PurlStr "pkg:pypi/setuptools@50.3.2?extension=tar.gz") Hsorted).
    right. vm_compute. discriminate.
Defined.

(** ** Construction of the metadata *)

(** C8, the claim at the input that refutes it: a caller who passes an
    exhausted one-shot iterator supplies no tools, yet the iterator is
    true as a condition, so [ThisTool] is not added and the tools
    collection stays empty. *)
Lemma init_empty_iterator_leaves_tools_empty :
  BomMetaData.tools
    (BomMetaData.__init__ Samples.world_1 (ArgIterator []) ArgNone None None None
                          ArgNone ArgNone)
  = []
  /\ SortedSet.contains ThisTool
       (BomMetaData.tools
          (BomMetaData.__init__ Samples.world_1 (ArgIterator []) ArgNone None None None
                                ArgNone ArgNone))
     = false.
Proof. split; reflexivity. Qed.

(** C8, amended: [BomMetaData.__init__] stamps the metadata with the
    current UTC time of the call.  When the tools argument is false as a
    condition, that is [None] or an empty sized container, the tools
    collection holds the sentinel [ThisTool] and nothing else.  When it
    is true as a condition the sentinel is not added and the collection
    is the sorted set of the tools supplied: for a non-empty iterable
    exactly the supplied tools, [ThisTool] among them only if it was
    supplied; for an exhausted one-shot iterator the empty collection. *)
Theorem BomMetaData_init_defaults
    (w : World) (tools : IterableArg Tool.t)
    (authors : IterableArg OrganizationalContact) (component : option Component.t)
    (manufacture supplier : option OrganizationalEntity)
    (licenses : IterableArg LicenseChoice) (properties : IterableArg Property) :
  let m := BomMetaData.__init__ w tools authors component manufacture supplier
                                licenses properties in
  BomMetaData.timestamp m = now w
  /\ (tools = ArgNone \/ tools = ArgSized [] -> BomMetaData.tools m = [ThisTool])
  /\ (forall x items,
         tools = ArgSized (x :: items) \/ tools = ArgIterator (x :: items) ->
         BomMetaData.tools m = SortedSet.new (x :: items)
         /\ (forall t, SortedSet.contains t (BomMetaData.tools m)
                       = existsb (py_eq t) (x :: items))
         /\ SortedSet.contains ThisTool (BomMetaData.tools m)
            = existsb (py_eq ThisTool) (x :: items))
  /\ (tools = ArgIterator [] -> BomMetaData.tools m = [])
  /\ (truthy tools = false -> BomMetaData.tools m = [ThisTool])
  /\ (truthy tools = true ->
      BomMetaData.tools m = SortedSet.new (or_empty tools)
      /\ forall t, SortedSet.contains t (BomMetaData.tools m)
                   = existsb (py_eq t) (or_empty tools)).
Proof.
  intros m. split; [|split; [|split; [|split; [|split]]]].
  - unfold m, BomMetaData.__init__. by destruct (truthy tools).
  - by intros [-> | ->].
  - intros x items Htools.
    assert (Hm : BomMetaData.tools m = SortedSet.new (x :: items))
      by by destruct Htools as [-> | ->].
    rewrite Hm. split; [done|].
    split; [intros t|]; unfold SortedSet.new; by rewrite SortedSetFacts.contains_update.
  - by intros ->.
  - intros Hfalsy. by destruct tools as [|[|x items]|items].
  - intros Htruthy.
    assert (Hm : BomMetaData.tools m = SortedSet.new (or_empty tools)).
    { unfold m, BomMetaData.__init__. by rewrite Htruthy. }
    rewrite Hm. split; [done|]. intros t. unfold SortedSet.new.
    by rewrite SortedSetFacts.contains_update.
Qed.

(** No tools supplied, then one tool supplied. *)
Lemma BomMetaData_init_defaults_witness :
  BomMetaData.tools (BomMetaData.default Samples.world_1) = [ThisTool]
  /\ BomMetaData.tools
       (BomMetaData.__init__ Samples.world_1 (ArgSized [Samples.my_tool]) ArgNone None
                             None None ArgNone ArgNone)
     = [Samples.my_tool].
Proof.
  split.
  - destruct (BomMetaData_init_defaults Samples.world_1 ArgNone ArgNone None None None
                ArgNone ArgNone) as (_ & Hnone & _).
    apply Hnone. by left.
  - destruct (BomMetaData_init_defaults Samples.world_1 (ArgSized [Samples.my_tool])
                ArgNone None None None ArgNone ArgNone) as (_ & _ & Hsupplied & _).
    destruct (Hsupplied Samples.my_tool [] (or_introl eq_refl)) as (Htools & _).
    exact Htools.
Defined.

(** ** The unique identifier of a document *)

Lemma perform_uuid (c : Bom.Call) (st : Bom.State) :
  (forall u, c <> Bom.call_set_uuid u) ->
  Bom.uuid (Bom.self (snd (Bom.perform c st))) = Bom.uuid (Bom.self st).
Proof.
  intros Hc. destruct c; try reflexivity.
  - simpl. unfold Bom.bind.
    pose proof (validate_self st) as Hself.
    destruct (Bom.validate st) as [[b|e] st']; simpl in *; by rewrite Hself.
  - by destruct (Hc uuid).
Qed.

(** C6, the claim at the input that refutes it: the property setter of
    [uuid] is public, and assigning through it after construction
    replaces the identifier. *)
Lemma uuid_replaced_by_setter :
  Bom.uuid Samples.empty = mkUUID 1
  /\ Bom.uuid (Bom.self (snd (Bom.perform (Bom.call_set_uuid (mkUUID 2))
                                          (Samples.fresh Samples.empty))))
     = mkUUID 2
  /\ mkUUID 1 <> mkUUID 2.
Proof. repeat split. discriminate. Qed.

(** C6, amended: the identifier drawn at construction is [uuid4()]; it
    is left unchanged by [validate], [has_component],
    [has_vulnerabilities], [get_component_by_purl], [get_urn_uuid], by
    insertion into the three collections and by the setters of the
    metadata and of the collections, in any number and order; only an
    assignment through the [uuid] setter replaces it, by the value
    assigned. *)
Theorem uuid_stable_without_setter (calls : list Bom.Call) (st : Bom.State) :
  (forall u, Bom.call_set_uuid u ∉ calls) ->
  Bom.uuid (Bom.self (Bom.perform_all calls st)) = Bom.uuid (Bom.self st)
  /\ (forall w cs ss es, Bom.uuid (Bom.__init__ w cs ss es) = uuid4 w)
  /\ (forall u, Bom.uuid (Bom.self (snd (Bom.perform (Bom.call_set_uuid u) st))) = u).
Proof.
  intros Hcalls. split; [|by split].
  revert st. induction calls as [|c calls IH]; intros st; [done|].
  simpl. rewrite IH.
  - apply perform_uuid. intros u ->. apply (Hcalls u). by left.
  - intros u Hu. apply (Hcalls u). by right.
Qed.

(** A run of calls on scenario B. *)
Lemma uuid_stable_without_setter_witness :
  Bom.uuid (Bom.self (Bom.perform_all Samples.session
                                      (Samples.fresh Samples.scenario_b)))
  = Bom.uuid Samples.scenario_b.
Proof.
  refine (proj1 (uuid_stable_without_setter
                   Samples.session (Samples.fresh Samples.scenario_b) _)).
  intros u Hu. unfold Samples.session in Hu.
  repeat (apply elem_of_cons in Hu as [Hu|Hu]; [discriminate|]).
  by apply elem_of_nil in Hu.
Defined.

(** ** The collections of a document *)

(** C7: the components, services and external references of a document
    are sorted sets.  Inserting a value-equal entity a second time changes
    nothing, so the size of the collection stays as it was; the
    collection built by a setter is strictly increasing for the order of
    its entities, insertion keeps it so, and the sequence it iterates is
    the same, entity for entity, whatever the order in which the values
    were supplied. *)
Theorem collections_are_sorted_sets (b : Bom.t) :
  (forall c c' : Component.t,
      py_eq c c' = true ->
      Bom.components (Bom.components_add (Bom.components_add b c) c')
      = Bom.components (Bom.components_add b c)
      /\ length (Bom.components (Bom.components_add (Bom.components_add b c) c'))
         = length (Bom.components (Bom.components_add b c)))
  /\ (forall s s' : Service.t,
         py_eq s s' = true ->
         Bom.services (Bom.services_add (Bom.services_add b s) s')
         = Bom.services (Bom.services_add b s))
  /\ (forall r r' : ExternalReference.t,
         py_eq r r' = true ->
         Bom.external_references
           (Bom.external_references_add (Bom.external_references_add b r) r')
         = Bom.external_references (Bom.external_references_add b r))
  /\ (forall l, SortedSet.sorted (Bom.components (Bom.set_components b l)))
  /\ (forall l, SortedSet.sorted (Bom.services (Bom.set_services b l)))
  /\ (forall l, SortedSet.sorted
                  (Bom.external_references (Bom.set_external_references b l)))
  /\ (forall c, SortedSet.sorted (Bom.components b) ->
                SortedSet.sorted (Bom.components (Bom.components_add b c)))
  /\ (forall l l' : list Component.t,
         l ≡ₚ l' ->
         Forall2 (fun x y => py_eq x y = true)
                 (Bom.components (Bom.set_components b l))
                 (Bom.components (Bom.set_components b l'))).
Proof.
  split; [|split; [|split; [|split; [|split; [|split; [|split]]]]]].
  - intros c c' Heq. simpl. by rewrite SortedSetFacts.add_value_equal.
  - intros s s' Heq. simpl. by apply SortedSetFacts.add_value_equal.
  - intros r r' Heq. simpl. by apply SortedSetFacts.add_value_equal.
  - intros l. apply SortedSetFacts.new_sorted.
  - intros l. apply SortedSetFacts.new_sorted.
  - intros l. apply SortedSetFacts.new_sorted.
  - intros c Hsorted. simpl. by apply SortedSetFacts.add_sorted.
  - intros l l' Hperm. exact (SortedSetFacts.new_Permutation l l' Hperm).
Qed.

(** Adding [setuptools] twice to the empty document gives one component. *)
Lemma collections_are_sorted_sets_witness :
  length (Bom.components
            (Bom.components_add (Bom.components_add Samples.empty Samples.setuptools)
                                Samples.setuptools))
  = 1%nat.
Proof.
  destruct (collections_are_sorted_sets Samples.empty) as (Hadd & _).
  destruct (Hadd Samples.setuptools Samples.setuptools) as (_ & Hlen).
  - by vm_compute.
  - rewrite Hlen. reflexivity.
Defined.

(** ** Equality *)

(** C5: the comparison is meant to be structural, on the hash of the
    attribute tuple, but it cannot answer: [BomMetaData.__hash__] hashes
    [self.tools], a [SortedSet], as it is, where [Bom.__hash__] wraps its
    collections in [tuple(...)].  With the [SortedSet] of sortedcontainers,
    which defines [__eq__] and no [__hash__], hashing it raises
    [TypeError]; so for two metadata objects, or two documents, whose
    attribute tuples match exactly, [__eq__] raises instead of returning
    [True].  Only the comparison with an object of another class returns,
    and it returns [False]. *)
Theorem equality_raises_on_matching_tuples (E : Interp) (e : Exn) (b1 b2 : Bom.t) :
  (forall tools, hash_SortedSet E tools = Raise e) ->
  Bom.attributes b1 = Bom.attributes b2 ->
  BomMetaData.attributes (Bom.metadata b1) = BomMetaData.attributes (Bom.metadata b2)
  /\ BomMetaData.__eq__ E (Bom.metadata b1) (BomMetaData.Instance (Bom.metadata b2))
     = Raise e
  /\ Bom.__eq__ E b1 (Bom.Instance b2) = Raise e
  /\ Bom.__eq__ E b1 (Bom.Instance b1) = Raise e
  /\ Bom.__eq__ E b1 Bom.Other = Return false
  /\ BomMetaData.__eq__ E (Bom.metadata b1) BomMetaData.Other = Return false.
Proof.
  intros Hraise Hattr. split; [|split; [|split; [|split]]].
  - apply (f_equal (fun t => t.1.1.1.2)) in Hattr. simpl in Hattr. by rewrite Hattr.
  - unfold BomMetaData.__eq__, BomMetaData.__hash__. by rewrite Hraise.
  - unfold Bom.__eq__, Bom.__hash__, BomMetaData.__hash__. by rewrite Hraise.
  - unfold Bom.__eq__, Bom.__hash__, BomMetaData.__hash__. by rewrite Hraise.
  - done.
Qed.

(** Two documents built from the same arguments, clock reading and
    uuid, under the library's sorted set. *)
Lemma equality_raises_on_matching_tuples_witness :
  Bom.__eq__ Samples.unhashable
    (Bom.__init__ Samples.world_1 ArgNone ArgNone ArgNone)
    (Bom.Instance (Bom.__init__ Samples.world_1 ArgNone ArgNone ArgNone))
  = Raise (TypeError "unhashable type: 'SortedSet'")
  /\ BomMetaData.__eq__ Samples.unhashable
       (BomMetaData.default Samples.world_1)
       (BomMetaData.Instance (BomMetaData.default Samples.world_1))
     = Raise (TypeError "unhashable type: 'SortedSet'").
Proof.
  destruct (equality_raises_on_matching_tuples
              Samples.unhashable (TypeError "unhashable type: 'SortedSet'")
              (Bom.__init__ Samples.world_1 ArgNone ArgNone ArgNone)
              (Bom.__init__ Samples.world_1 ArgNone ArgNone ArgNone))
    as (_ & Hmeta & Hbom & _); [reflexivity|reflexivity|].
  split; [exact Hbom|exact Hmeta].
Defined.

(** * Further properties *)

(** ** Members of a sorted set *)

Module SortedSetMembers.
Import SortedSet SortedSetFacts.
Section members.
Context {A : Type} `{Entity A}.

Lemma insort_Permutation (v : A) (s : list A) : insort v s ≡ₚ v :: s.
Proof.
  induction s as [|y s IH]; simpl; [done|].
  destruct (py_lt v y); [done|].
  rewrite IH. apply Permutation_swap.
Qed.

Lemma elem_of_add (x v : A) (s : list A) :
  x ∈ add v s <-> (contains v s = false /\ x = v) \/ x ∈ s.
Proof.
  unfold add. destruct (contains v s) eqn:Hv.
  - split; [by right|]. by intros [[? _]|?].
  - rewrite insort_Permutation, elem_of_cons. split.
    + intros [->|?]; [by left|by right].
    + intros [[_ ->]|?]; [by left|by right].
Qed.

Lemma elem_of_update (x : A) (s l : list A) : x ∈ update s l -> x ∈ s \/ x ∈ l.
Proof.
  unfold update. revert s. induction l as [|v l IH]; intros s; simpl.
  - by left.
  - intros Hx. apply IH in Hx as [Hx|Hx]; [|right; by right].
    apply elem_of_add in Hx as [[_ ->]|Hx]; [right; by left|by left].
Qed.

Lemma elem_of_new (x : A) (l : list A) : x ∈ new l -> x ∈ l.
Proof.
  intros Hx. apply elem_of_update in Hx as [Hx|Hx]; [|done].
  by apply elem_of_nil in Hx.
Qed.

Lemma length_add (v : A) (s : list A) : (length (add v s) <= S (length s))%nat.
Proof.
  unfold add. destruct (contains v s); [lia|]. by rewrite length_insort.
Qed.

Lemma length_update (s l : list A) : (length (update s l) <= length s + length l)%nat.
Proof.
  unfold update. revert s. induction l as [|v l IH]; intros s; simpl; [lia|].
  specialize (IH (add v s)). pose proof (length_add v s). lia.
Qed.

Lemma update_distinct (s l : list A) :
  all_distinct l = true ->
  (forall x, x ∈ l -> contains x s = false) ->
  update s l ≡ₚ (s ++ l)%list.
Proof.
  unfold update. revert s. induction l as [|v l IH]; intros s Hd Hs; simpl.
  - by rewrite app_nil_r.
  - simpl in Hd. apply andb_true_iff in Hd as [Hv Hd].
    apply negb_true_iff in Hv.
    assert (Hvs : contains v s = false) by (apply Hs; by left).
    rewrite IH; [| done |].
    + unfold add. rewrite Hvs, insort_Permutation.
      by rewrite <- Permutation_middle.
    + intros x Hx. rewrite contains_add, (Hs x) by by right.
      rewrite orb_false_r. apply py_eq_sym_false.
      destruct (py_eq v x) eqn:Hvx; [|done].
      rewrite <- Hv. symmetry. apply existsb_exists.
      exists x. by rewrite <- list_elem_of_In.
Qed.

Lemma new_distinct (l : list A) : all_distinct l = true -> new l ≡ₚ l.
Proof. intros Hd. unfold new. by rewrite update_distinct. Qed.

Lemma py_lt_asym (x y : A) : py_lt x y = true -> py_lt y x = false.
Proof.
  intros Hxy. destruct (py_lt y x) eqn:Hyx; [|done].
  assert (py_lt x x = true) by eauto using py_lt_trans.
  by rewrite (py_lt_irrefl x x) in * by apply py_eq_refl.
Qed.

Lemma insort_last (v : A) (s : list A) :
  Forall (fun y => py_lt y v = true) s -> insort v s = (s ++ [v])%list.
Proof.
  induction 1 as [|y s Hy Hs IH]; simpl; [done|].
  by rewrite (py_lt_asym y v), IH.
Qed.

Lemma contains_above (v : A) (s : list A) :
  Forall (fun y => py_lt y v = true) s -> contains v s = false.
Proof.
  unfold contains. induction 1 as [|y s Hy Hs IH]; simpl; [done|].
  rewrite IH, orb_false_r. destruct (py_eq v y) eqn:Hvy; [|done].
  by rewrite (py_lt_irrefl y v) in Hy by by apply py_eq_sym.
Qed.

Lemma update_sorted_app (acc l : list A) :
  sorted (acc ++ l)%list -> update acc l = (acc ++ l)%list.
Proof.
  unfold update, sorted. revert acc.
  induction l as [|v l IH]; intros acc Hs; simpl.
  - by rewrite app_nil_r.
  - assert (Hbelow : Forall (fun y => py_lt y v = true) acc).
    { apply Forall_forall. intros y Hy.
      apply (StronglySorted_app_1_elem_of _ _ _ _ _ Hs); [done|by left]. }
    unfold add. rewrite contains_above, insort_last by done.
    rewrite IH; by rewrite <- app_assoc.
Qed.

Lemma new_sorted_id (s : list A) : sorted s -> new s = s.
Proof. intros Hs. unfold new. by rewrite update_sorted_app. Qed.

Lemma new_empty_iff (l : list A) : new l = [] <-> l = [].
Proof.
  split; [|by intros ->].
  destruct l as [|v l]; [done|]. intros Hnew.
  assert (Hc : contains v (new (v :: l)) = true).
  { unfold new. rewrite contains_update. simpl. by rewrite py_eq_refl. }
  by rewrite Hnew in Hc.
Qed.
End members.
End SortedSetMembers.

(** ** Building a document from a parser *)

Lemma validate_returns_iff (st : Bom.State) :
  fst (Bom.validate st) = Return true
  <-> forall r, declared_dependency (Bom.self st) r -> in_universe (Bom.self st) r.
Proof.
  pose proof (dependency_diff_empty (Bom.self st)) as Hiff.
  unfold resolved in Hiff. rewrite <- Hiff. clear Hiff.
  destruct (decide (Bom.all_dependency_bom_refs (Bom.self st)
                      ∖ Bom.all_bom_refs (Bom.self st) = ∅)) as [He|Hne].
  - by rewrite validate_returns.
  - by rewrite validate_raises.
Qed.

Lemma validate_warnings (st : Bom.State) :
  Bom.warnings (snd (Bom.validate st)) = Bom.warnings st
  \/ Bom.warnings (snd (Bom.validate st))
     = (Bom.warnings st ++ advisory (Bom.self st))%list.
Proof.
  destruct (decide (Bom.all_dependency_bom_refs (Bom.self st)
                      ∖ Bom.all_bom_refs (Bom.self st) = ∅)) as [He|Hne].
  - right. by rewrite validate_returns.
  - left. by rewrite validate_raises.
Qed.

(** X1: [from_parser] builds a document whose components are the sorted
    set of what the parser discovered: [has_component] answers [True]
    exactly for the values equal to a discovered component, every member
    is one of the discovered components, duplicates are dropped, and the
    rest of the document is that of [Bom()]: no service, no external
    reference, the uuid drawn and the default metadata. *)
Theorem from_parser_components (w : World) (parser : list Component.t) :
  let b := Bom.from_parser w parser in
  (forall c, Bom.has_component b c = existsb (py_eq c) parser)
  /\ SortedSet.sorted (Bom.components b)
  /\ (forall c, c ∈ Bom.components b -> c ∈ parser)
  /\ (length (Bom.components b) <= length parser)%nat
  /\ Bom.services b = []
  /\ Bom.external_references b = []
  /\ Bom.uuid b = uuid4 w
  /\ Bom.metadata b = BomMetaData.default w.
Proof.
  intros b.
  assert (Hc : Bom.components b = SortedSet.new parser) by reflexivity.
  split; [|split; [|split; [|split]]].
  - intros c. unfold Bom.has_component. rewrite Hc. unfold SortedSet.new.
    by rewrite SortedSetFacts.contains_update.
  - rewrite Hc. apply SortedSetFacts.new_sorted.
  - intros c. rewrite Hc. apply SortedSetMembers.elem_of_new.
  - rewrite Hc. apply (SortedSetMembers.length_update [] parser).
  - done.
Qed.

(** X2: when no two of the discovered components are equal, the document
    of [from_parser] holds exactly the discovered components, and
    [validate] on it returns [True] if and only if every identifier that
    a discovered component depends on is the identifier of a discovered
    component; in no case does it emit a warning. *)
Theorem from_parser_validate
    (w : World) (parser : list Component.t) (ws : list Bom.Warning) :
  all_distinct parser = true ->
  Bom.components (Bom.from_parser w parser) ≡ₚ parser
  /\ (fst (Bom.validate (Bom.mkState (Bom.from_parser w parser) ws)) = Return true
      <-> forall c r, c ∈ parser -> r ∈ Component.dependencies c ->
                      exists c', c' ∈ parser /\ Component.bom_ref c' = r)
  /\ Bom.warnings (snd (Bom.validate (Bom.mkState (Bom.from_parser w parser) ws))) = ws.
Proof.
  intros Hd.
  assert (Hperm : Bom.components (Bom.from_parser w parser) ≡ₚ parser)
    by exact (SortedSetMembers.new_distinct parser Hd).
  split; [done|]. split.
  - rewrite validate_returns_iff. cbn [Bom.self].
    unfold declared_dependency, in_universe.
    cbn [Bom.metadata Bom.from_parser Bom.services Bom.__init__ or_empty].
    change (BomMetaData.component (BomMetaData.default w)) with (@None Component.t).
    change (SortedSet.new (@nil Service.t)) with (@nil Service.t).
    fold (Bom.from_parser w parser).
    split.
    + intros Hres c r Hc Hr.
      destruct (Hres r) as [(c0 & Hc0 & _)|[(c' & Hc' & Href)|(s & Hs & _)]].
      * exists c. by rewrite Hperm.
      * done.
      * exists c'. by rewrite <- Hperm.
      * by apply elem_of_nil in Hs.
    + intros Hclosed r (c & Hc & Hr). right; left.
      rewrite Hperm in Hc. destruct (Hclosed c r Hc Hr) as (c' & Hc' & Href).
      exists c'. by rewrite Hperm.
  - destruct (validate_warnings (Bom.mkState (Bom.from_parser w parser) ws)) as [Hw|Hw];
      rewrite Hw; [done|].
    cbn [Bom.warnings Bom.self]. unfold advisory.
    change (BomMetaData.component (Bom.metadata (Bom.from_parser w parser)))
      with (@None Component.t).
    by rewrite app_nil_r.
Qed.

(** The two components of the cycle scenario, as a parser supplies them. *)
Lemma from_parser_validate_witness :
  fst (Bom.validate (Samples.fresh
                       (Bom.from_parser Samples.world_1
                          [Samples.component "b" "lib-b" ["lib-a"];
                           Samples.component "a" "lib-a" ["lib-b"]])))
  = Return true.
Proof.
  destruct (from_parser_validate Samples.world_1
              [Samples.component "b" "lib-b" ["lib-a"];
               Samples.component "a" "lib-a" ["lib-b"]] [])
    as (_ & Hvalid & _); [by vm_compute|].
  apply Hvalid. intros c r Hc Hr.
  apply elem_of_cons in Hc as [->|Hc]; [|apply list_elem_of_singleton in Hc as ->].
  - apply elem_of_list_to_set, list_elem_of_singleton in Hr as ->.
    eexists. split; [right; by left|done].
  - apply elem_of_list_to_set, list_elem_of_singleton in Hr as ->.
    eexists. split; [by left|done].
Defined.

(** ** Membership and vulnerabilities *)

Lemma existsb_insort `{Entity A} (f : A -> bool) (v : A) (s : list A) :
  existsb f (SortedSet.insort v s) = f v || existsb f s.
Proof.
  rewrite (SortedSetFacts.existsb_Permutation f _ _
             (SortedSetMembers.insort_Permutation v s)).
  done.
Qed.

(** X3: insertion and lookup agree.  After [components.add(c)],
    [has_component] answers [True] for [c], for everything equal to [c]
    and for everything it answered [True] for before, and for nothing
    else; after the components setter it answers [True] exactly for the
    values equal to one of those assigned. *)
Theorem has_component_after_add (b : Bom.t) (c : Component.t) :
  (forall c', Bom.has_component (Bom.components_add b c) c'
              = py_eq c' c || Bom.has_component b c')
  /\ Bom.has_component (Bom.components_add b c) c = true
  /\ (forall l c', Bom.has_component (Bom.set_components b l) c'
                   = existsb (py_eq c') l).
Proof.
  split; [|split].
  - intros c'. apply SortedSetFacts.contains_add.
  - unfold Bom.has_component. cbn [Bom.components Bom.components_add].
    by rewrite SortedSetFacts.contains_add, py_eq_refl.
  - intros l c'. unfold Bom.has_component. cbn [Bom.components Bom.set_components].
    unfold SortedSet.new. by rewrite SortedSetFacts.contains_update.
Qed.

(** X4: [has_vulnerabilities] is [True] exactly when some member of the
    components collection has a vulnerability.  Adding a component that
    the document does not hold yet makes it [True] if that component has
    one; adding a component equal to one the document holds changes
    nothing, whatever vulnerabilities the added value carries. *)
Theorem has_vulnerabilities_after_add (b : Bom.t) (c : Component.t) :
  (Bom.has_vulnerabilities b = true
   <-> exists c0, c0 ∈ Bom.components b /\ Component.vulnerabilities c0 <> [])
  /\ (Bom.has_component b c = false ->
      Bom.has_vulnerabilities (Bom.components_add b c)
      = Component.has_vulnerabilities c || Bom.has_vulnerabilities b)
  /\ (Bom.has_component b c = true ->
      Bom.has_vulnerabilities (Bom.components_add b c) = Bom.has_vulnerabilities b).
Proof.
  split; [|split].
  - unfold Bom.has_vulnerabilities. rewrite existsb_exists. split.
    + intros (c0 & Hc0 & Hv). exists c0. rewrite list_elem_of_In. split; [done|].
      unfold Component.has_vulnerabilities in Hv.
      by destruct (Component.vulnerabilities c0).
    + intros (c0 & Hc0 & Hv). exists c0. rewrite <- list_elem_of_In. split; [done|].
      unfold Component.has_vulnerabilities.
      by destruct (Component.vulnerabilities c0).
  - unfold Bom.has_component, Bom.has_vulnerabilities.
    cbn [Bom.components Bom.components_add]. unfold SortedSet.add.
    intros ->. apply existsb_insort.
  - unfold Bom.has_component, Bom.has_vulnerabilities.
    cbn [Bom.components Bom.components_add]. unfold SortedSet.add.
    by intros ->.
Qed.

(** ** Repairing and extending a document *)

(** X5: adding a service that the document does not hold yet removes
    its identifier, and nothing else, from the unresolved references: the
    declared identifiers stay, the universe gains the identifier of the
    service.  So [validate] then returns [True] exactly when the
    identifier of the service was the only one unresolved, if any. *)
Theorem services_add_resolves (b : Bom.t) (s : Service.t) (ws : list Bom.Warning) :
  SortedSet.contains s (Bom.services b) = false ->
  Bom.all_dependency_bom_refs (Bom.services_add b s)
  ∖ Bom.all_bom_refs (Bom.services_add b s)
  = (Bom.all_dependency_bom_refs b ∖ Bom.all_bom_refs b) ∖ {[ Service.bom_ref s ]}
  /\ (fst (Bom.validate (Bom.mkState (Bom.services_add b s) ws)) = Return true
      <-> Bom.all_dependency_bom_refs b ∖ Bom.all_bom_refs b ⊆ {[ Service.bom_ref s ]}).
Proof.
  intros Hnew.
  assert (Huniv : forall r, in_universe (Bom.services_add b s) r
                            <-> in_universe b r \/ r = Service.bom_ref s).
  { intros r. unfold in_universe. cbn [Bom.metadata Bom.components Bom.services
                                       Bom.services_add].
    split.
    - intros [Hm|[Hc|(x & Hx & Href)]]; [left; by left|left; right; by left|].
      apply SortedSetMembers.elem_of_add in Hx as [[_ ->]|Hx]; [by right|].
      left. right. right. eauto.
    - intros [[Hm|[Hc|(x & Hx & Href)]]| ->]; [by left|right; by left| |].
      + right. right. exists x. split; [|done].
        apply SortedSetMembers.elem_of_add. by right.
      + right. right. exists s. split; [|done].
        apply SortedSetMembers.elem_of_add. by left. }
  assert (Hdiff : Bom.all_dependency_bom_refs (Bom.services_add b s)
                  ∖ Bom.all_bom_refs (Bom.services_add b s)
                  = (Bom.all_dependency_bom_refs b ∖ Bom.all_bom_refs b)
                    ∖ {[ Service.bom_ref s ]}).
  { apply set_eq. intros r.
    rewrite elem_of_dependency_diff, elem_of_difference, elem_of_dependency_diff,
      elem_of_singleton, Huniv.
    unfold declared_dependency. cbn [Bom.components Bom.services_add]. tauto. }
  split; [done|].
  rewrite validate_returns_iff. cbn [Bom.self].
  pose proof (dependency_diff_empty (Bom.services_add b s)) as Hiff.
  unfold resolved in Hiff. rewrite <- Hiff, Hdiff. clear Hiff.
  split.
  - intros Hempty r Hr. destruct (decide (r = Service.bom_ref s)) as [->|Hne].
    + by apply elem_of_singleton.
    + assert (r ∈ (Bom.all_dependency_bom_refs b ∖ Bom.all_bom_refs b)
                  ∖ {[Service.bom_ref s]}) as Hin.
      { apply elem_of_difference. split; [done|]. by rewrite elem_of_singleton. }
      rewrite Hempty in Hin. by apply not_elem_of_empty in Hin.
  - intros Hsub. apply set_eq. intros r. split; [|by intros ?%not_elem_of_empty].
    intros [Hr Hne]%elem_of_difference. destruct Hne. by apply Hsub.
Qed.

(** Scenario B is repaired by a service that carries [lib-missing]. *)
Lemma services_add_resolves_witness :
  fst (Bom.validate (Samples.fresh
                       (Bom.services_add Samples.scenario_b
                          (Service.mk "registry" None "lib-missing"))))
  = Return true.
Proof.
  destruct (services_add_resolves Samples.scenario_b
              (Service.mk "registry" None "lib-missing") []) as (_ & Hvalid);
    [reflexivity|].
  apply Hvalid. refine (bool_decide_unpack _ _). vm_compute. exact I.
Defined.

(** X6: adding a component keeps a valid document valid as long as each
    identifier the new component depends on is known to the document or
    is its own. *)
Theorem components_add_keeps_valid
    (st : Bom.State) (c : Component.t) (ws : list Bom.Warning) :
  fst (Bom.validate st) = Return true ->
  (forall r, r ∈ Component.dependencies c ->
             in_universe (Bom.self st) r \/ r = Component.bom_ref c) ->
  fst (Bom.validate (Bom.mkState (Bom.components_add (Bom.self st) c) ws)) = Return true.
Proof.
  rewrite !validate_returns_iff. cbn [Bom.self]. intros Hres Hdeps.
  assert (Hmono : forall r, in_universe (Bom.self st) r ->
                            in_universe (Bom.components_add (Bom.self st) c) r).
  { intros r [Hm|[(x & Hx & Href)|Hs]]; [by left| |right; by right].
    right. left. exists x. split; [|done].
    cbn [Bom.components Bom.components_add].
    apply SortedSetMembers.elem_of_add. by right. }
  intros r (x & Hx & Hr). cbn [Bom.components Bom.components_add] in Hx.
  apply SortedSetMembers.elem_of_add in Hx as [[Hnew ->]|Hx].
  - destruct (Hdeps r Hr) as [Hu| ->]; [by apply Hmono|].
    right. left. exists c. split; [|done].
    cbn [Bom.components Bom.components_add].
    apply SortedSetMembers.elem_of_add. by left.
  - apply Hmono, Hres. by exists x.
Qed.

(** Scenario A stays valid when a library depending on [lib-a] joins. *)
Lemma components_add_keeps_valid_witness :
  fst (Bom.validate (Samples.fresh
                       (Bom.components_add Samples.scenario_a
                          (Samples.component "c" "lib-c" ["lib-a"]))))
  = Return true.
Proof.
  apply (components_add_keeps_valid (Samples.fresh Samples.scenario_a)
           (Samples.component "c" "lib-c" ["lib-a"]) []).
  - by vm_compute.
  - intros r Hr. apply elem_of_list_to_set, list_elem_of_singleton in Hr as ->.
    left. right. left. eexists. split; [by left|done].
Defined.

(** X7: a document never comes out of its constructor or of
    [from_parser] with a described component, so [validate] on it emits
    no warning, whether it returns or raises. *)
Theorem fresh_document_never_warns
    (w : World) (cs : IterableArg Component.t) (ss : IterableArg Service.t)
    (es : IterableArg ExternalReference.t) (parser : list Component.t)
    (ws : list Bom.Warning) :
  Bom.warnings (snd (Bom.validate (Bom.mkState (Bom.__init__ w cs ss es) ws))) = ws
  /\ Bom.warnings (snd (Bom.validate (Bom.mkState (Bom.from_parser w parser) ws))) = ws
  /\ BomMetaData.component (Bom.metadata (Bom.__init__ w cs ss es)) = None.
Proof.
  split; [|split; [|done]].
  - destruct (validate_warnings (Bom.mkState (Bom.__init__ w cs ss es) ws)) as [Hw|Hw];
      rewrite Hw; [done|].
    cbn [Bom.warnings Bom.self]. unfold advisory.
    change (BomMetaData.component (Bom.metadata (Bom.__init__ w cs ss es)))
      with (@None Component.t).
    by rewrite app_nil_r.
  - destruct (validate_warnings (Bom.mkState (Bom.from_parser w parser) ws)) as [Hw|Hw];
      rewrite Hw; [done|].
    cbn [Bom.warnings Bom.self]. unfold advisory.
    change (BomMetaData.component (Bom.metadata (Bom.from_parser w parser)))
      with (@None Component.t).
    by rewrite app_nil_r.
Qed.

(** ** The URN of a document *)

Lemma append_cons (a : ascii) (s t : string) :
  String a s +:+ t = String a (s +:+ t).
Proof. reflexivity. Qed.

Lemma length_append (s t : string) :
  String.length (s +:+ t) = (String.length s + String.length t)%nat.
Proof.
  induction s as [|a s IH]; [done|].
  rewrite append_cons. simpl. by rewrite IH.
Qed.

Lemma append_eq_inv (s1 s2 t1 t2 : string) :
  String.length s1 = String.length s2 ->
  s1 +:+ t1 = s2 +:+ t2 -> s1 = s2 /\ t1 = t2.
Proof.
  revert s2. induction s1 as [|a s1 IH]; intros [|b s2] Hlen Heq; try done.
  rewrite !append_cons in Heq. injection Heq as -> Heq.
  injection Hlen as Hlen. destruct (IH s2 Hlen Heq) as [-> ->]. done.
Qed.

Lemma length_hex (d : nat) (n : Z) : String.length (Bom.hex d n) = d.
Proof.
  revert n. induction d as [|d IH]; intros n; [done|].
  cbn [Bom.hex]. rewrite length_append, IH. simpl. lia.
Qed.

Lemma hex_digit_inj (x y : Z) :
  0 <= x < 16 -> 0 <= y < 16 -> Bom.hex_digit x = Bom.hex_digit y -> x = y.
Proof.
  intros Hx Hy.
  assert (Ex : x = 0 \/ x = 1 \/ x = 2 \/ x = 3 \/ x = 4 \/ x = 5 \/ x = 6 \/ x = 7
               \/ x = 8 \/ x = 9 \/ x = 10 \/ x = 11 \/ x = 12 \/ x = 13 \/ x = 14
               \/ x = 15) by lia.
  assert (Ey : y = 0 \/ y = 1 \/ y = 2 \/ y = 3 \/ y = 4 \/ y = 5 \/ y = 6 \/ y = 7
               \/ y = 8 \/ y = 9 \/ y = 10 \/ y = 11 \/ y = 12 \/ y = 13 \/ y = 14
               \/ y = 15) by lia.
  clear Hx Hy.
  repeat (destruct Ex as [Ex|Ex]); subst x;
    repeat (destruct Ey as [Ey|Ey]); subst y;
    intros Heq; vm_compute in Heq; first [reflexivity | discriminate Heq].
Qed.

Lemma hex_inj (d : nat) (n m : Z) :
  0 <= n < 16 ^ Z.of_nat d -> 0 <= m < 16 ^ Z.of_nat d ->
  Bom.hex d n = Bom.hex d m -> n = m.
Proof.
  revert n m. induction d as [|d IH]; intros n m Hn Hm Heq.
  - simpl in Hn, Hm. lia.
  - cbn [Bom.hex] in Heq.
    rewrite Nat2Z.inj_succ, Z.pow_succ_r in Hn, Hm by lia.
    apply append_eq_inv in Heq as [Hhigh Hlow]; [|by rewrite !length_hex].
    injection Hlow as Hlow.
    apply hex_digit_inj in Hlow; [|by apply Z.mod_pos_bound..].
    apply IH in Hhigh.
    + rewrite (Z.div_mod n 16), (Z.div_mod m 16) by lia. by rewrite Hhigh, Hlow.
    + split; [by apply Z.div_pos; lia|]. apply Z.div_lt_upper_bound; lia.
    + split; [by apply Z.div_pos; lia|]. apply Z.div_lt_upper_bound; lia.
Qed.

Ltac spine h Hlen :=
  repeat (destruct h as [|? h]; [discriminate Hlen|]; simpl in Hlen);
  destruct h as [|? h]; [|discriminate Hlen].

Lemma length_grouped (h : string) :
  String.length h = 32%nat -> String.length (grouped h) = 36%nat.
Proof. intros Hlen. spine h Hlen. reflexivity. Qed.

Lemma grouped_inj (h h' : string) :
  String.length h = 32%nat -> String.length h' = 32%nat ->
  grouped h = grouped h' -> h = h'.
Proof.
  intros Hlen Hlen' Heq. spine h Hlen. spine h' Hlen'.
  vm_compute in Heq. congruence.
Qed.

(** X8: [get_urn_uuid] is the text [urn:uuid:] followed by the 36
    characters of the uuid, 45 characters in all, and it identifies the
    document: two documents have the same URN exactly when they have the
    same uuid. *)
Theorem get_urn_uuid_identifies (b1 b2 : Bom.t) :
  0 <= int (Bom.uuid b1) < 2 ^ 128 ->
  0 <= int (Bom.uuid b2) < 2 ^ 128 ->
  String.length (Bom.get_urn_uuid b1) = 45%nat
  /\ String.substring 0 9 (Bom.get_urn_uuid b1) = "urn:uuid:"
  /\ (Bom.get_urn_uuid b1 = Bom.get_urn_uuid b2 <-> Bom.uuid b1 = Bom.uuid b2).
Proof.
  intros Hb1 Hb2. unfold Bom.get_urn_uuid.
  change (Bom.str_UUID (Bom.uuid b1)) with (grouped (Bom.hex 32 (int (Bom.uuid b1)))).
  change (Bom.str_UUID (Bom.uuid b2)) with (grouped (Bom.hex 32 (int (Bom.uuid b2)))).
  split; [|split].
  - rewrite length_append, length_grouped by apply length_hex. reflexivity.
  - reflexivity.
  - split; [|by intros ->].
    intros Heq. apply append_eq_inv in Heq as [_ Heq]; [|done].
    apply grouped_inj in Heq; [|apply length_hex..].
    apply (hex_inj 32) in Heq; [|done..].
    destruct (Bom.uuid b1), (Bom.uuid b2). simpl in Heq. by rewrite Heq.
Qed.

(** The two sample documents of equal hash have different URNs. *)
Lemma get_urn_uuid_identifies_witness :
  Bom.get_urn_uuid Samples.twin_1 = "urn:uuid:00000000-0000-0000-0000-000000000000"
  /\ (Bom.get_urn_uuid Samples.twin_1 = Bom.get_urn_uuid Samples.twin_2
      <-> Bom.uuid Samples.twin_1 = Bom.uuid Samples.twin_2).
Proof.
  split; [by vm_compute|].
  apply (get_urn_uuid_identifies Samples.twin_1 Samples.twin_2); by vm_compute.
Defined.

(** ** Hashing and comparison *)

(** X10: hashing a document raises exactly when hashing the tools of its
    metadata raises, with the same exception; and comparing anything with
    a document, or with a metadata object, whose tools cannot be hashed
    raises that exception instead of answering. *)
Theorem unhashable_tools_poison_equality (E : Interp) (e : Exn) (b1 b2 : Bom.t) :
  hash_SortedSet E (BomMetaData.tools (Bom.metadata b2)) = Raise e ->
  Bom.__hash__ E b2 = Raise e
  /\ BomMetaData.__hash__ E (Bom.metadata b2) = Raise e
  /\ Bom.__eq__ E b1 (Bom.Instance b2) = Raise e
  /\ BomMetaData.__eq__ E (Bom.metadata b1) (BomMetaData.Instance (Bom.metadata b2))
     = Raise e
  /\ (forall b e', Bom.__hash__ E b = Raise e'
                   <-> hash_SortedSet E (BomMetaData.tools (Bom.metadata b)) = Raise e').
Proof.
  intros Hraise.
  assert (Hmeta : BomMetaData.__hash__ E (Bom.metadata b2) = Raise e).
  { unfold BomMetaData.__hash__. by rewrite Hraise. }
  assert (Hbom : Bom.__hash__ E b2 = Raise e).
  { unfold Bom.__hash__. by rewrite Hmeta. }
  split; [done|]. split; [done|]. split; [|split].
  - unfold Bom.__eq__. by rewrite Hbom.
  - unfold BomMetaData.__eq__. by rewrite Hmeta.
  - intros b e'. unfold Bom.__hash__, BomMetaData.__hash__.
    by destruct (hash_SortedSet E (BomMetaData.tools (Bom.metadata b))).
Qed.

(** With the library's sorted set, the empty document cannot be compared. *)
Lemma unhashable_tools_poison_equality_witness :
  Bom.__eq__ Samples.unhashable Samples.scenario_a (Bom.Instance Samples.empty)
  = Raise (TypeError "unhashable type: 'SortedSet'").
Proof.
  apply (unhashable_tools_poison_equality Samples.unhashable
           (TypeError "unhashable type: 'SortedSet'") Samples.scenario_a Samples.empty).
  reflexivity.
Defined.

(** ** The representation invariant *)

Lemma perform_well_formed (c : Bom.Call) (st : Bom.State) :
  well_formed (Bom.self st) -> well_formed (Bom.self (snd (Bom.perform c st))).
Proof.
  intros (Hc & Hs & He). destruct c; try done.
  - simpl. unfold Bom.bind. pose proof (validate_self st) as Hself.
    destruct (Bom.validate st) as [[b|e] st']; simpl in *; by rewrite Hself.
  - split; [|done]. by apply SortedSetFacts.add_sorted.
  - split; [done|]. split; [|done]. by apply SortedSetFacts.add_sorted.
  - split; [done|]. split; [done|]. by apply SortedSetFacts.add_sorted.
  - split; [|done]. apply SortedSetFacts.new_sorted.
  - split; [done|]. split; [|done]. apply SortedSetFacts.new_sorted.
  - split; [done|]. split; [done|]. apply SortedSetFacts.new_sorted.
Qed.

(** X11: the three collections of a document are strictly sorted, hence
    free of duplicates, when it leaves its constructor or [from_parser],
    and every operation keeps them so: queries, [validate], insertions
    and all the setters, in any number and order. *)
Theorem well_formed_invariant :
  (forall w cs ss es, well_formed (Bom.__init__ w cs ss es))
  /\ (forall w parser, well_formed (Bom.from_parser w parser))
  /\ (forall calls st, well_formed (Bom.self st) ->
                       well_formed (Bom.self (Bom.perform_all calls st)))
  /\ (forall b, well_formed b ->
                NoDup (Bom.components b) /\ NoDup (Bom.services b)
                /\ NoDup (Bom.external_references b)).
Proof.
  split; [|split; [|split]].
  - intros w cs ss es. repeat split; apply SortedSetFacts.new_sorted.
  - intros w parser. repeat split; apply SortedSetFacts.new_sorted.
  - intros calls. induction calls as [|c calls IH]; intros st Hwf; [done|].
    simpl. by apply IH, perform_well_formed.
  - intros b (Hc & Hs & He). repeat split; by apply sorted_NoDup.
Qed.

(** A run of calls on a constructed document. *)
Lemma well_formed_invariant_witness :
  well_formed (Bom.self (Bom.perform_all Samples.session
                                         (Samples.fresh Samples.scenario_c))).
Proof.
  destruct well_formed_invariant as (Hinit & _ & Hkeep & _).
  apply Hkeep. apply Hinit.
Defined.

(** ** The sentinel tool *)

(** X12: the tools collection that [BomMetaData.__init__] leaves is a
    sorted set; it holds [ThisTool] exactly when the argument was false
    as a condition or supplied it; and it is empty in one case only, an
    exhausted one-shot iterator, which is true as a condition although
    it yields nothing. *)
Theorem init_tools_sentinel
    (w : World) (tools : IterableArg Tool.t)
    (authors : IterableArg OrganizationalContact) (component : option Component.t)
    (manufacture supplier : option OrganizationalEntity)
    (licenses : IterableArg LicenseChoice) (properties : IterableArg Property) :
  let m := BomMetaData.__init__ w tools authors component manufacture supplier
                                licenses properties in
  SortedSet.sorted (BomMetaData.tools m)
  /\ SortedSet.contains ThisTool (BomMetaData.tools m)
     = negb (truthy tools) || existsb (py_eq ThisTool) (or_empty tools)
  /\ (BomMetaData.tools m = [] <-> tools = ArgIterator []).
Proof.
  intros m. unfold m, BomMetaData.__init__.
  destruct (truthy tools) eqn:Htruthy; cbn [negb BomMetaData.tools orb].
  - split; [apply SortedSetFacts.new_sorted|]. split.
    + unfold SortedSet.new. by rewrite SortedSetFacts.contains_update.
    + rewrite SortedSetMembers.new_empty_iff.
      destruct tools as [|[|x items]|[|x items]]; simpl in *; split; congruence.
  - split; [apply SortedSetFacts.add_sorted, SortedSetFacts.new_sorted|]. split.
    + by rewrite SortedSetFacts.contains_add, py_eq_refl.
    + split.
      * intros Hempty.
        assert (SortedSet.contains ThisTool
                  (SortedSet.add ThisTool (SortedSet.new (or_empty tools))) = true) as Hc
          by by rewrite SortedSetFacts.contains_add, py_eq_refl.
        by rewrite Hempty in Hc.
      * intros ->. done.
Qed.

(** ** Lookup by package URL, continued *)

Lemma filter_none {A} (f : A -> bool) (l : list A) :
  (forall x, x ∈ l -> f x = false) -> List.filter f l = [].
Proof.
  induction l as [|y l IH]; intros Hf; simpl; [done|].
  rewrite (Hf y) by by left. apply IH. intros x Hx. apply Hf. by right.
Qed.

Lemma filter_insort_Permutation `{Entity A} (f : A -> bool) (v : A) (s : list A) :
  List.filter f (SortedSet.insort v s) ≡ₚ List.filter f (v :: s).
Proof.
  induction s as [|y s IH]; [done|].
  cbn [SortedSet.insort]. destruct (py_lt v y); [done|].
  cbn [List.filter] in *. destruct (f y), (f v); rewrite IH; try done.
  apply Permutation_swap.
Qed.

(** X13: components hold their purl as a [PackageURL], as the test data
    builds them, and a [PackageURL] never equals a [str]: whatever the
    document, [get_component_by_purl] called with a string, as its
    signature announces, or with [None], returns [None]. *)
Theorem get_component_by_purl_str_never_matches (b : Bom.t) (s : string) :
  Bom.get_component_by_purl b (Bom.PurlStr s) = None
  /\ Bom.get_component_by_purl b Bom.PurlNone = None.
Proof.
  split; [|done].
  unfold Bom.get_component_by_purl.
  destruct (Bom.purl_truthy (Bom.PurlStr s)); [|done].
  rewrite filter_none; [done|].
  intros x _. by destruct (Component.purl x).
Qed.

(** X14: adding a component that the document does not hold yet and
    then looking its purl up finds it when no member had that purl, and
    finds nothing when a member had it already: an ambiguous purl is
    answered by [None]. *)
Theorem get_component_by_purl_after_add
    (b : Bom.t) (c : Component.t) (p : PackageURL.t) :
  Bom.has_component b c = false ->
  Component.purl c = Some p ->
  ((forall x, x ∈ Bom.components b -> Component.purl x <> Some p) ->
   Bom.get_component_by_purl (Bom.components_add b c) (Bom.PurlObj p) = Some c)
  /\ ((exists x, x ∈ Bom.components b /\ Component.purl x = Some p) ->
      Bom.get_component_by_purl (Bom.components_add b c) (Bom.PurlObj p) = None).
Proof.
  intros Hnew Hp. unfold Bom.has_component in Hnew.
  unfold Bom.get_component_by_purl. cbn [Bom.purl_truthy Bom.components Bom.components_add].
  unfold SortedSet.add. rewrite Hnew.
  set (has_purl := fun x : Component.t => Bom.purl_eq (Component.purl x) (Bom.PurlObj p)).
  pose proof (filter_insort_Permutation has_purl c (Bom.components b)) as Hperm.
  assert (Hc : has_purl c = true).
  { unfold has_purl. rewrite Hp. simpl. by apply bool_decide_eq_true. }
  cbn [List.filter] in Hperm. rewrite Hc in Hperm.
  split.
  - intros Hnone. rewrite (filter_none has_purl (Bom.components b)) in Hperm.
    + apply Permutation_singleton_r in Hperm. by rewrite Hperm.
    + intros x Hx. unfold has_purl. specialize (Hnone x Hx).
      destruct (Component.purl x) as [q|]; [|done]. simpl.
      apply bool_decide_eq_false. congruence.
  - intros (x & Hx & Hxp).
    assert (x ∈ List.filter has_purl (Bom.components b)) as Hin.
    { apply elem_of_filter_bool. split; [done|].
      unfold has_purl. rewrite Hxp. simpl. by apply bool_decide_eq_true. }
    apply Permutation_length in Hperm.
    destruct (List.filter has_purl (Bom.components b)) as [|y found];
      [by apply elem_of_nil in Hin|].
    simpl in Hperm. destruct (List.filter has_purl (SortedSet.insort c (Bom.components b)))
      as [|y1 [|y2 found']]; simpl in *; try done.
Qed.

(** A second component with the purl of [setuptools] hides both. *)
Lemma get_component_by_purl_after_add_witness :
  Bom.get_component_by_purl
    (Bom.components_add Samples.bom_with_component_setuptools_basic
       (Component.mk "setuptools-fork" None "fork" (Some Samples.setuptools_purl) ∅ []))
    (Bom.PurlObj Samples.setuptools_purl)
  = None.
Proof.
  destruct (get_component_by_purl_after_add
              Samples.bom_with_component_setuptools_basic
              (Component.mk "setuptools-fork" None "fork"
                            (Some Samples.setuptools_purl) ∅ [])
              Samples.setuptools_purl) as (_ & Hambiguous); [by vm_compute|done|].
  apply Hambiguous. exists Samples.setuptools. split; [by left|done].
Defined.

(** ** Assigning a collection *)

(** X15: a setter given a strictly sorted sequence stores that very
    sequence; so assigning to each collection of a document its own
    content leaves the document as it was, and building a sorted set from
    a sorted set changes nothing. *)
Theorem setters_round_trip (b : Bom.t) :
  (forall l, SortedSet.sorted l -> Bom.components (Bom.set_components b l) = l)
  /\ (well_formed b ->
      Bom.set_external_references
        (Bom.set_services (Bom.set_components b (Bom.components b)) (Bom.services b))
        (Bom.external_references b)
      = b)
  /\ (forall l : list Component.t, SortedSet.new (SortedSet.new l) = SortedSet.new l).
Proof.
  split; [|split].
  - intros l Hl. by apply SortedSetMembers.new_sorted_id.
  - intros (Hc & Hs & He). destruct b as [u m cs ss es].
    unfold Bom.set_external_references, Bom.set_services, Bom.set_components.
    cbn [Bom.uuid Bom.metadata Bom.components Bom.services Bom.external_references] in *.
    by rewrite !SortedSetMembers.new_sorted_id.
  - intros l. apply SortedSetMembers.new_sorted_id, SortedSetFacts.new_sorted.
Qed.

(** Scenario C, each collection assigned to itself. *)
Lemma setters_round_trip_witness :
  Bom.set_external_references
    (Bom.set_services
       (Bom.set_components Samples.scenario_c (Bom.components Samples.scenario_c))
       (Bom.services Samples.scenario_c))
    (Bom.external_references Samples.scenario_c)
  = Samples.scenario_c.
Proof.
  destruct (setters_round_trip Samples.scenario_c) as (_ & Hself & _).
  apply Hself. repeat split; apply SortedSetFacts.new_sorted.
Defined.

(** ** What validation reads *)

(** X16: [validate] reads the described component, the components and
    the services, and nothing else: two documents that agree on these
    three end [validate] the same way, with the same value or the same
    exception, and emit the same warnings, whatever their uuids, their
    external references, their tools or their timestamps. *)
Theorem validate_frame (st st' : Bom.State) :
  BomMetaData.component (Bom.metadata (Bom.self st))
  = BomMetaData.component (Bom.metadata (Bom.self st')) ->
  Bom.components (Bom.self st) = Bom.components (Bom.self st') ->
  Bom.services (Bom.self st) = Bom.services (Bom.self st') ->
  fst (Bom.validate st) = fst (Bom.validate st')
  /\ exists emitted,
       Bom.warnings (snd (Bom.validate st)) = (Bom.warnings st ++ emitted)%list
       /\ Bom.warnings (snd (Bom.validate st')) = (Bom.warnings st' ++ emitted)%list.
Proof.
  intros Hdesc Hcomps Hservs.
  assert (Hrefs : Bom.all_bom_refs (Bom.self st) = Bom.all_bom_refs (Bom.self st'))
    by (unfold Bom.all_bom_refs; by rewrite Hdesc, Hcomps, Hservs).
  assert (Hdeps : Bom.all_dependency_bom_refs (Bom.self st)
                  = Bom.all_dependency_bom_refs (Bom.self st'))
    by (unfold Bom.all_dependency_bom_refs; by rewrite Hcomps).
  assert (Hadv : advisory (Bom.self st) = advisory (Bom.self st'))
    by (unfold advisory; by rewrite Hdesc).
  destruct (decide (Bom.all_dependency_bom_refs (Bom.self st)
                      ∖ Bom.all_bom_refs (Bom.self st) = ∅)) as [He|Hne].
  - rewrite (validate_returns st), (validate_returns st') by congruence.
    split; [done|]. exists (advisory (Bom.self st)). by rewrite Hadv.
  - rewrite (validate_raises st), (validate_raises st') by congruence.
    split; [simpl; by rewrite Hrefs, Hdeps|].
    exists []. by rewrite !app_nil_r.
Qed.

(** Scenario B under another uuid and with an external reference. *)
Lemma validate_frame_witness :
  fst (Bom.validate (Samples.fresh Samples.scenario_b))
  = fst (Bom.validate
           (Samples.fresh
              (Bom.external_references_add
                 (Bom.set_uuid Samples.scenario_b (mkUUID 7))
                 (ExternalReference.mk "website" "https://cyclonedx.org" None)))).
Proof.
  apply (validate_frame
           (Samples.fresh Samples.scenario_b)
           (Samples.fresh
              (Bom.external_references_add
                 (Bom.set_uuid Samples.scenario_b (mkUUID 7))
                 (ExternalReference.mk "website" "https://cyclonedx.org" None))));
    reflexivity.
Defined.
